(** * dhive memo encryption: [src/helpers/aes.ts] and [src/memo.ts]

    A shallow embedding of the memo codec of dhive and of its AES helper,
    with the properties stated by the design document proved or refuted
    against the embedded code.

    Layout of the development:
    - [Bytes], [JsString], [Utf8]: the data the code manipulates (Node
      [Buffer]s, JavaScript strings, the UTF-8 codec of [Buffer]);
    - [ByteBufferLib]: the handful of [bytebuffer] methods the code calls;
    - [Runtime]: the process state (nonce entropy, clock, random source,
      trace of calls into the crypto layer) and the state/exception monad;
    - [LongText]: [Long] values as decimal strings ([toString],
      [Long.fromString]) and the values a nonce argument can be;
    - [Collaborators]: the interface of everything the two files import
      (keys, hashes, the block cipher, Base58, the memo (de)serializer);
    - [Aes] and [Memo]: the two source files, function by function;
    - [Design]: the key schedule and the nonce generator in the words of
      the design document, to compare the code with;
    - [Toy]: a small implementation of the collaborators, to run the code
      on concrete inputs;
    - the properties, one block per claim (C1 to C10) of the design
      document. *)

From Stdlib Require Import Ascii String.
From Stdlib Require Import Strings.Byte.
From Stdlib Require Import ZArith List Bool Lia.
Import ListNotations.
Local Open Scope Z_scope.

(* ------------------------------------------------------------------ *)
(** ** Bytes and Node Buffers *)

Module Bytes.

(** A Node [Buffer] is a list of bytes. *)
Definition Buffer := list byte.

Definition Z_of_byte (b : byte) : Z := Z.of_N (Byte.to_N b).

(** Storing a number into a [Uint8Array] slot keeps its low 8 bits. *)
Definition byte_of_Z (z : Z) : byte :=
  match Byte.of_N (Z.to_N (z mod 256)) with
  | Some b => b
  | None => x00
  end.

(** [buf.slice(start, end)] for [0 <= start]. *)
Definition slice (buf : Buffer) (start stop : Z) : Buffer :=
  firstn (Z.to_nat (stop - start)) (skipn (Z.to_nat start) buf).

(** JavaScript's [ToInt32]: wrap into [-2^31, 2^31). *)
Definition to_int32 (z : Z) : Z := (z + 2 ^ 31) mod 2 ^ 32 - 2 ^ 31.

(** JavaScript's [ToUint32] ([x >>> 0]). *)
Definition to_uint32 (z : Z) : Z := z mod 2 ^ 32.

End Bytes.
Export Bytes.

(* ------------------------------------------------------------------ *)
(** ** JavaScript strings *)

Module JsString.

(** A JavaScript string is a sequence of UTF-16 code units. *)
Definition jsstring := list Z.

(** An ASCII literal as a JavaScript string. *)
Definition lit (s : string) : jsstring :=
  map (fun a => Z.of_N (N_of_ascii a)) (list_ascii_of_string s).

(** The marker character ['#']. *)
Definition hash : Z := 35.

(** [s.startsWith('#')] *)
Definition startsWith_hash (s : jsstring) : bool :=
  match s with
  | c :: _ => c =? hash
  | [] => false
  end.

(** [s.substring(1)] *)
Definition substring1 (s : jsstring) : jsstring := tl s.

(** [a === b] on strings. *)
Fixpoint eqb (a b : jsstring) : bool :=
  match a, b with
  | [], [] => true
  | x :: a', y :: b' => (x =? y) && eqb a' b'
  | _, _ => false
  end.

(** [buf.toString('binary')]: one code unit per byte. *)
Definition of_binary (buf : Buffer) : jsstring := map Z_of_byte buf.

(** [Buffer.from(s, 'binary')]: the low byte of every code unit. *)
Definition to_binary (s : jsstring) : Buffer := map byte_of_Z s.

(** ASCII text of fewer than 128 characters. *)
Definition short_ascii (text : jsstring) : Prop :=
  Forall (fun c => 0 <= c < 128) text /\ (length text < 128)%nat.

End JsString.
Export JsString.

(* ------------------------------------------------------------------ *)
(** ** The UTF-8 codec of Node's Buffer *)

Module Utf8.

Definition is_lead (c : Z) : bool := (0xD800 <=? c) && (c <=? 0xDBFF).
Definition is_trail (c : Z) : bool := (0xDC00 <=? c) && (c <=? 0xDFFF).

Definition cont (z : Z) : byte := byte_of_Z (Z.lor 0x80 (Z.land z 0x3F)).

Definition encode_code_point (cp : Z) : Buffer :=
  if cp <? 0x80 then [byte_of_Z cp]
  else if cp <? 0x800 then
    [byte_of_Z (Z.lor 0xC0 (Z.shiftr cp 6)); cont cp]
  else if cp <? 0x10000 then
    [byte_of_Z (Z.lor 0xE0 (Z.shiftr cp 12)); cont (Z.shiftr cp 6); cont cp]
  else
    [byte_of_Z (Z.lor 0xF0 (Z.shiftr cp 18)); cont (Z.shiftr cp 12);
     cont (Z.shiftr cp 6); cont cp].

(** U+FFFD, written for an unpaired surrogate. *)
Definition replacement : Z := 0xFFFD.

(** [Buffer.from(s)] / [Buffer.from(s, 'utf8')] / [buf.write(s, 'utf8')]. *)
Fixpoint encode (s : jsstring) : Buffer :=
  match s with
  | [] => []
  | c :: rest =>
      if is_lead c then
        match rest with
        | d :: rest' =>
            if is_trail d
            then encode_code_point
                   (0x10000 + (c - 0xD800) * 0x400 + (d - 0xDC00))
                 ++ encode rest'
            else encode_code_point replacement ++ encode rest
        | [] => encode_code_point replacement
        end
      else if is_trail c then encode_code_point replacement ++ encode rest
      else encode_code_point c ++ encode rest
  end.

(** Decoder state while inside a multi-byte sequence. *)
Record pending := Pending {
  needed : nat;      (* continuation bytes still to come *)
  acc : Z;           (* code point bits read so far *)
  lower : Z;         (* accepted range of the next byte *)
  upper : Z
}.

Definition start (b : Z) : list Z * option pending :=
  if b <=? 0x7F then ([b], None)
  else if (0xC2 <=? b) && (b <=? 0xDF) then
    ([], Some (Pending 1 (Z.land b 0x1F) 0x80 0xBF))
  else if (0xE0 <=? b) && (b <=? 0xEF) then
    ([], Some (Pending 2 (Z.land b 0xF)
                 (if b =? 0xE0 then 0xA0 else 0x80)
                 (if b =? 0xED then 0x9F else 0xBF)))
  else if (0xF0 <=? b) && (b <=? 0xF4) then
    ([], Some (Pending 3 (Z.land b 0x7)
                 (if b =? 0xF0 then 0x90 else 0x80)
                 (if b =? 0xF4 then 0x8F else 0xBF)))
  else ([replacement], None).

Definition step (st : option pending) (b : Z) : list Z * option pending :=
  match st with
  | None => start b
  | Some p =>
      if (lower p <=? b) && (b <=? upper p) then
        let acc' := Z.lor (Z.shiftl (acc p) 6) (Z.land b 0x3F) in
        match needed p with
        | S (S n) => ([], Some (Pending (S n) acc' 0x80 0xBF))
        | _ => ([acc'], None)
        end
      else
        (* ill-formed: one U+FFFD, then the byte is looked at afresh *)
        let '(out, st') := start b in (replacement :: out, st')
  end.

Fixpoint decode_from (st : option pending) (buf : Buffer) : list Z :=
  match buf with
  | [] => match st with None => [] | Some _ => [replacement] end
  | b :: rest =>
      let '(out, st') := step st (Z_of_byte b) in
      out ++ decode_from st' rest
  end.

Definition utf16_of_code_point (cp : Z) : jsstring :=
  if cp <? 0x10000 then [cp]
  else [0xD800 + Z.shiftr (cp - 0x10000) 10;
        0xDC00 + Z.land (cp - 0x10000) 0x3FF].

(** [buf.toString('utf-8')]: never throws, ill-formed input decodes to
    U+FFFD. *)
Definition decode (buf : Buffer) : jsstring :=
  flat_map utf16_of_code_point (decode_from None buf).

End Utf8.

(* ------------------------------------------------------------------ *)
(** ** The bytebuffer methods used by the code (little-endian buffers) *)

Module ByteBufferLib.

(** [Long]: a 64-bit pattern, kept as its unsigned value. *)
Definition Long := Z.
Definition Long_wrap (v : Z) : Long := v mod 2 ^ 64.
Definition Long_low (v : Long) : Z := Z.land v 0xFFFFFFFF.
Definition Long_high (v : Long) : Z := Z.land (Z.shiftr v 32) 0xFFFFFFFF.
Definition Long_shiftLeft (v : Long) (n : Z) : Long := Long_wrap (Z.shiftl v n).
Definition Long_or (a b : Long) : Long := Z.lor a b.
Definition Long_neg (v : Long) : Long := Long_wrap (- v).
Definition Long_mul (a b : Long) : Long := Long_wrap (a * b).
Definition Long_add (a b : Long) : Long := Long_wrap (a + b).

(** [Long.fromNumber] on an integer below 2^63 in absolute value. *)
Definition Long_fromNumber (v : Z) : Long := Long_wrap v.

(** The signed reading of the 64 bits, in [-2^63, 2^63). *)
Definition Long_signed (v : Long) : Z := (v + 2 ^ 63) mod 2 ^ 64 - 2 ^ 63.

(** The four bytes [writeUint64] stores for one 32-bit half. *)
Definition write_half (w : Z) : Buffer :=
  [byte_of_Z (Z.land w 0xFF);
   byte_of_Z (Z.land (Z.shiftr w 8) 0xFF);
   byte_of_Z (Z.land (Z.shiftr w 16) 0xFF);
   byte_of_Z (Z.land (Z.shiftr w 24) 0xFF)].

(** [bb.writeUint64(v)] on a little-endian buffer: low half, high half. *)
Definition writeUint64 (v : Long) : Buffer :=
  write_half (Long_low v) ++ write_half (Long_high v).

(** [bb.readUint32()] on a little-endian buffer holding at least four
    bytes (a missing byte reads as 0, which the callers never rely on). *)
Definition readUint32 (buf : Buffer) : Z :=
  let b i := Z_of_byte (nth i buf x00) in
  let value := Z.shiftl (b 2%nat) 16 in
  let value := Z.lor value (Z.shiftl (b 1%nat) 8) in
  let value := Z.lor value (b 0%nat) in
  value + to_uint32 (Z.shiftl (b 3%nat) 24).

(** The [while (value >= 0x80)] loop of [writeVarint32]; a 32-bit value
    goes round at most four times. *)
Fixpoint writeVarint32_loop (fuel : nat) (value : Z) : Buffer :=
  match fuel with
  | O => [byte_of_Z value]
  | S fuel' =>
      if 0x80 <=? value
      then byte_of_Z (Z.lor (Z.land value 0x7f) 0x80)
           :: writeVarint32_loop fuel' (Z.shiftr value 7)
      else [byte_of_Z value]
  end.

Definition writeVarint32 (value : Z) : Buffer :=
  writeVarint32_loop 4 (to_uint32 value).

(** [bb.writeVString(str)] followed by [flip()]: the varint byte length,
    then the UTF-8 bytes. *)
Definition writeVString (str : jsstring) : Buffer :=
  let body := Utf8.encode str in
  writeVarint32 (Z.of_nat (length body)) ++ body.

(** The [do ... while (b & 0x80)] loop of [readVarint32], from the bytes
    at the current offset: the value and the number of bytes consumed.
    At the end of the buffer the slot read is [undefined], which
    contributes no bits and stops the loop. *)
Fixpoint readVarint32_loop (buf : Buffer) (c : nat) (value : Z) : Z * nat :=
  match buf with
  | [] => (value, S c)
  | b :: rest =>
      let b := Z_of_byte b in
      let value' :=
        if (c <? 5)%nat
        then to_int32 (Z.lor value
                         (to_int32 (Z.shiftl (Z.land b 0x7f)
                                             (7 * Z.of_nat c))))
        else value in
      if Z.land b 0x80 =? 0 then (value', S c)
      else readVarint32_loop rest (S c) value'
  end.

(** [bb.readVString()] at offset 0; [None] when it throws. *)
Definition readVString (buf : Buffer) : option jsstring :=
  if (length buf <? 1)%nat then None
  else
    let '(len, c) := readVarint32_loop buf 0 0 in
    let offset := Z.of_nat c in
    if Z.of_nat (length buf) <? offset then None
    else if Z.of_nat (length buf) <? offset + len then None
    else Some (Utf8.decode (slice buf offset (offset + len))).

End ByteBufferLib.
Export ByteBufferLib.

(* ------------------------------------------------------------------ *)
(** ** Process state, exceptions and the monad the code runs in *)

Module Runtime.

(** Key objects of [../crypto]: both classes wrap a [key] buffer. *)
Record PrivateKey := { priv_key : Buffer }.
Record PublicKey := { key : Buffer }.

(** What the code can throw. *)
Inductive Error :=
| InvalidNonce          (* Error('Invalid nonce') *)
| MissingCipherText     (* assert(message, 'Missing cipher text') *)
| MissingPlainText      (* assert(message, 'Missing plain text') *)
| DecipherFailure       (* decipher.final(): bad padding or length *)
| InvalidKeyString      (* PrivateKey.fromString / PublicKey.fromString *)
| TypeError             (* a method called on a value that has none,
                           or writeUint64's "Illegal value" *)
| LongEmptyString       (* Error('empty string') of Long.fromString *)
| LongInteriorHyphen    (* Error('interior hyphen') of Long.fromString *)
| Base58Failure         (* bs58.decode *)
| DeserializeFailure.   (* types.EncryptedMemoD *)

(** Calls into the crypto layer that the properties speak about. *)
Inductive Event :=
| SharedSecretDerived (priv : PrivateKey) (pub : PublicKey)
| CipherCreated (tag iv : Buffer)       (* createCipheriv('aes-256-cbc') *)
| DecipherCreated (tag iv : Buffer).    (* createDecipheriv('aes-256-cbc') *)

Record World := {
  unique_nonce_entropy : option Z;  (* the module variable, None = null *)
  now : Z;                          (* what Date.now() returns *)
  random : nat -> byte;             (* the bytes randomBytes hands out *)
  drawn : nat;                      (* how many of them were taken *)
  trace : list Event                (* crypto calls made so far *)
}.

Inductive Result (A : Type) :=
| Ok (a : A)
| Throw (e : Error).
Arguments Ok {A} a.
Arguments Throw {A} e.

Definition M (A : Type) := World -> Result A * World.

Definition ret {A} (a : A) : M A := fun w => (Ok a, w).
Definition throw {A} (e : Error) : M A := fun w => (Throw e, w).
Definition bind {A B} (m : M A) (f : A -> M B) : M B :=
  fun w =>
    match m w with
    | (Ok a, w') => f a w'
    | (Throw e, w') => (Throw e, w')
    end.

(** Updates of one component of the state. *)
Definition with_entropy (w : World) (v : Z) : World :=
  {| unique_nonce_entropy := Some v;
     now := now w; random := random w; drawn := drawn w;
     trace := trace w |}.

Definition with_drawn (w : World) (n : nat) : World :=
  {| unique_nonce_entropy := unique_nonce_entropy w;
     now := now w; random := random w; drawn := (drawn w + n)%nat;
     trace := trace w |}.

Definition with_events (w : World) (evs : list Event) : World :=
  {| unique_nonce_entropy := unique_nonce_entropy w;
     now := now w; random := random w; drawn := drawn w;
     trace := trace w ++ evs |}.

Definition emit (ev : Event) : M unit :=
  fun w => (Ok tt, with_events w [ev]).

(** [Date.now()] *)
Definition Date_now : M Z := fun w => (Ok (now w), w).

(** [randomBytes(n)] *)
Definition randomBytes (n : nat) : M Buffer :=
  fun w =>
    (Ok (map (fun i => random w (drawn w + i)%nat) (seq 0 n)),
     with_drawn w n).

Definition get_entropy : M (option Z) :=
  fun w => (Ok (unique_nonce_entropy w), w).

Definition set_entropy (v : Z) : M unit :=
  fun w => (Ok tt, with_entropy w v).

(** [assert(cond, msg)] *)
Definition assert_ (cond : bool) (e : Error) : M unit :=
  if cond then ret tt else throw e.

(** A computation that only returns or throws. *)
Definition lift {A} (r : Result A) : M A := fun w => (r, w).

End Runtime.
Export Runtime.

Declare Scope js_scope.
Delimit Scope js_scope with js.
Notation "x <- m ;; k" := (bind m (fun x => k))
  (at level 61, m at next level, right associativity) : js_scope.
Notation "m ;;; k" := (bind m (fun _ => k))
  (at level 61, right associativity) : js_scope.
Local Open Scope js_scope.

(* ------------------------------------------------------------------ *)
(** ** [Long] values as strings *)

Module LongText.

(** The code unit of ['-']. *)
Definition minus : Z := 45.

Definition is_digit (c : Z) : bool := (48 <=? c) && (c <=? 57).

(** Strings of decimal digits. *)
Definition digits (s : jsstring) : Prop :=
  Forall (fun c => is_digit c = true) s.

(** The decimal digits of a non-negative integer, least significant
    first; twenty digits cover 64 bits. *)
Fixpoint digits_lsf (fuel : nat) (n : Z) : jsstring :=
  match fuel with
  | O => []
  | S fuel' =>
      (48 + n mod 10)
      :: (if n / 10 =? 0 then [] else digits_lsf fuel' (n / 10))
  end.

Definition decimal (n : Z) : jsstring := rev (digits_lsf 20 n).

(** [long.toString()] of a signed [Long]: the decimal digits of its
    signed reading, with ['-'] before a negative one. *)
Definition Long_toString (v : Long) : jsstring :=
  let s := Long_signed v in
  if s <? 0 then minus :: decimal (- s) else decimal s.

(** The characters [parseInt] skips at the start of its input. *)
Definition StrWhiteSpaceChar (c : Z) : bool :=
  existsb (Z.eqb c)
    [0x9; 0xA; 0xB; 0xC; 0xD; 0x20; 0xA0; 0x1680; 0x2028; 0x2029; 0x202F;
     0x205F; 0x3000; 0xFEFF]
  || ((0x2000 <=? c) && (c <=? 0x200A)).

Fixpoint skip_white (s : jsstring) : jsstring :=
  match s with
  | c :: rest => if StrWhiteSpaceChar c then skip_white rest else s
  | [] => []
  end.

(** The value of the leading decimal digits of [s], after [acc]. *)
Fixpoint digits_value (acc : Z) (s : jsstring) : Z :=
  match s with
  | c :: rest =>
      if is_digit c then digits_value (acc * 10 + (c - 48)) rest else acc
  | [] => acc
  end.

(** [parseInt(s, 10)]; [None] is [NaN]. *)
Definition parseInt (s : jsstring) : option Z :=
  let s := skip_white s in
  let '(sign, s) :=
    match s with
    | c :: rest =>
        if c =? minus then (-1, rest)
        else if c =? 43 then (1, rest)
        else (1, s)
    | [] => (1, s)
    end in
  match s with
  | c :: _ => if is_digit c then Some (sign * digits_value 0 s) else None
  | [] => None
  end.

(** [Long.fromNumber(value)] for what [parseInt] gave: [NaN] is zero. *)
Definition Long_fromParsed (value : option Z) : Long :=
  match value with
  | Some v => Long_fromNumber v
  | None => 0
  end.

(** The loop of [Long.fromString]: eight characters at a time, from the
    characters not yet read. *)
Fixpoint fromString_loop (fuel : nat) (str : jsstring) (result : Long)
    : Long :=
  match fuel with
  | O => result
  | S fuel' =>
      match str with
      | [] => result
      | _ :: _ =>
          let size := Nat.min 8 (length str) in
          let value := parseInt (firstn size str) in
          let power := Long_fromNumber (10 ^ Z.of_nat size) in
          fromString_loop fuel' (skipn size str)
            (Long_add (Long_mul result power) (Long_fromParsed value))
      end
  end.

(** The strings [Long.fromString] reads as zero before looking at them. *)
Definition not_a_number (str : jsstring) : bool :=
  existsb (JsString.eqb str)
    [lit "NaN"; lit "Infinity"; lit "+Infinity"; lit "-Infinity"].

(** [Long.fromString(str)] on a string, radix 10: the empty string and a
    hyphen inside the string are errors, a leading hyphen negates what
    follows it. *)
Fixpoint Long_fromString (str : jsstring) : Result Long :=
  match str with
  | [] => Throw LongEmptyString
  | c :: rest =>
      if not_a_number str then Ok 0
      else if c =? minus then
        match Long_fromString rest with
        | Ok v => Ok (Long_neg v)
        | Throw e => Throw e
        end
      else if existsb (Z.eqb minus) rest then Throw LongInteriorHyphen
      else Ok (fromString_loop (length str) str 0)
  end.

End LongText.
Export LongText.

(* ------------------------------------------------------------------ *)
(** ** What the two files import *)

Module Wire.
(** The object handed to [Types.EncryptedMemo] and returned by
    [types.EncryptedMemoD]. *)
Record Envelope := {
  from : PublicKey;
  to : PublicKey;
  nonce : Long;
  check : Z;
  encrypted : Buffer
}.
End Wire.

(** The imports of [aes.ts] and [memo.ts] whose code lies outside the two
    files: key handling ([../crypto]), Node's hashes and AES-256-CBC, the
    [bs58] codec and the memo (de)serializer of [./chain].  The two files
    are embedded over any implementation of this interface. *)
Class Collaborators := {
  createPublic : PrivateKey -> PublicKey;
  get_shared_secret : PrivateKey -> PublicKey -> Buffer;
  PrivateKey_fromString : jsstring -> option PrivateKey;
  PublicKey_fromString : jsstring -> option PublicKey;
  PublicKey_toString : PublicKey -> jsstring;
  sha512 : Buffer -> Buffer;
  sha256 : Buffer -> Buffer;
  aes_256_cbc_encrypt : Buffer -> Buffer -> Buffer -> Buffer;
  aes_256_cbc_decrypt : Buffer -> Buffer -> Buffer -> option Buffer;
  bs58_encode : Buffer -> jsstring;
  bs58_decode : jsstring -> option Buffer;
  EncryptedMemo : Wire.Envelope -> Buffer;
  EncryptedMemoD : Buffer -> option Wire.Envelope
}.

(** Facts about the collaborators that some properties rest on: the
    digests have their fixed width, and the string form of a public key
    identifies the key. *)
Definition digests_have_fixed_width {collab : Collaborators} : Prop :=
  (forall m, length (sha512 m) = 64%nat)
  /\ (forall m, length (sha256 m) = 32%nat).

Definition key_strings_identify_keys {collab : Collaborators} : Prop :=
  forall p q, PublicKey_toString p = PublicKey_toString q -> p = q.

(* ------------------------------------------------------------------ *)
(** ** [src/helpers/aes.ts] *)

Module Aes.

(** A [message] argument: a [Buffer], a (binary) string, or nothing. *)
Inductive Message :=
| MUndefined
| MString (s : jsstring)
| MBuffer (b : Buffer).

(** JavaScript truthiness of a message: every object is truthy, the
    empty string and [undefined] are not. *)
Definition truthy (m : Message) : bool :=
  match m with
  | MUndefined => false
  | MString [] => false
  | MString (_ :: _) => true
  | MBuffer _ => true
  end.

(** Truthiness of an optional number: [undefined] and [0] are falsy. *)
Definition truthy_number (n : option Z) : bool :=
  match n with
  | None => false
  | Some v => negb (v =? 0)
  end.

(** [check === checksum] for a number and an optional number. *)
Definition strict_eq (check : Z) (checksum : option Z) : bool :=
  match checksum with
  | Some v => check =? v
  | None => false
  end.

(** The locals [tag], [iv] and [check] of [crypt]. *)
Record KeyMaterial := {
  tag : Buffer;
  iv : Buffer;
  check : Z
}.

(** A [nonce] argument: nothing, a number (an integer), a string, a
    [Buffer] or a [Long]. *)
Inductive Nonce :=
| NUndefined
| NNumber (n : Z)
| NString (s : jsstring)
| NBuffer (b : Buffer)
| NLong (v : Long).

(** JavaScript truthiness of a nonce: [undefined], the number [0] and
    the empty string are falsy. *)
Definition truthy_nonce (o : Nonce) : bool :=
  match o with
  | NUndefined => false
  | NNumber n => negb (n =? 0)
  | NString [] => false
  | NString (_ :: _) => true
  | NBuffer _ => true
  | NLong _ => true
  end.

(** What [crypt] returns. *)
Record Crypted := {
  nonce : Nonce;
  message : Buffer;
  checksum : Z
}.

(** [Long.fromString(o)] on a value of any kind.  Only a string has what
    the function uses: a number has no [indexOf]; a [Buffer] has a
    [length] and an [indexOf], which finds the byte of ['-'], but no
    [substring]. *)
Definition Long_fromString_of (o : Nonce) : Result Long :=
  match o with
  | NString s => Long_fromString s
  | NBuffer [] => Throw LongEmptyString
  | NBuffer (b :: rest) =>
      if negb (Z_of_byte b =? minus)
         && existsb (fun x => Z_of_byte x =? minus) rest
      then Throw LongInteriorHyphen
      else Throw TypeError
  | NUndefined | NNumber _ | NLong _ => Throw TypeError
  end.

(** [const toLongObj = o => (o ? Long.isLong(o) ? o : Long.fromString(o) : o)] *)
Definition toLongObj (o : Nonce) : Result Nonce :=
  if truthy_nonce o then
    match o with
    | NLong _ => Ok o
    | _ =>
        match Long_fromString_of o with
        | Ok v => Ok (NLong v)
        | Throw e => Throw e
        end
    end
  else Ok o.

(** The [Long] that [bb.writeUint64(value)] stores: a number and a
    string are converted, anything else must be a [Long]. *)
Definition writeUint64_operand (value : Nonce) : Result Long :=
  match value with
  | NNumber n => Ok (Long_fromNumber n)
  | NString s => Long_fromString s
  | NLong v => Ok v
  | NUndefined | NBuffer _ => Throw TypeError
  end.

(** [const toBinaryBuffer = o => (o ? Buffer.isBuffer(o) ? o : Buffer.from(o, 'binary') : o)] *)
Definition toBinaryBuffer (o : Message) : Message :=
  if truthy o then
    match o with
    | MBuffer b => MBuffer b
    | MString s => MBuffer (to_binary s)
    | MUndefined => MUndefined
    end
  else o.

(** The bytes [toBinaryBuffer] yields for a truthy message. *)
Definition binary_of (o : Message) : Buffer :=
  match o with
  | MBuffer b => b
  | MString s => to_binary s
  | MUndefined => []
  end.

(** The buffer a cipher is fed; a non-buffer makes [update] throw. *)
Definition cipher_input (o : Message) : M Buffer :=
  match o with
  | MBuffer b => ret b
  | _ => throw TypeError
  end.

(** Lines 21-23 of [encrypt]: the message is written as a varint-prefixed
    string, read back as a binary string ([mbuf.flip().toBinary()]) and
    handed to [Buffer.from] with its default encoding, UTF-8. *)
Definition framed (message : jsstring) : Buffer :=
  let mbuf := writeVString message in
  Utf8.encode (of_binary mbuf).

(** Lines 116-118 of [uniqueNonce]: the nonce for a clock reading [t] and
    an incremented counter [incremented]. *)
Definition nonce_value (t incremented : Z) : Long :=
  let long := Long_fromNumber t in
  let entropy := Z.rem incremented 0xFFFF in
  Long_or (Long_shiftLeft long 16) (Long_fromNumber entropy).

Section WithCollaborators.
Context {collab : Collaborators}.

(** [function cryptoJsDecrypt(message, tag, iv)] *)
Definition cryptoJsDecrypt (message : Message) (tag iv : Buffer) : M Buffer :=
  assert_ (truthy message) MissingCipherText ;;;
  let message := toBinaryBuffer message in
  emit (DecipherCreated tag iv) ;;;
  input <- cipher_input message ;;
  match aes_256_cbc_decrypt tag iv input with
  | Some plain => ret plain
  | None => throw DecipherFailure
  end.

(** [function cryptoJsEncrypt(message, tag, iv)] *)
Definition cryptoJsEncrypt (message : Message) (tag iv : Buffer) : M Buffer :=
  assert_ (truthy message) MissingPlainText ;;;
  let message := toBinaryBuffer message in
  emit (CipherCreated tag iv) ;;;
  input <- cipher_input message ;;
  ret (aes_256_cbc_encrypt tag iv input).

(** [function uniqueNonce()]; the returned decimal string
    ([long.toString()]) is kept as the [Long] it prints, and printed with
    [Long_toString] where it is passed on. *)
Definition uniqueNonce : M Long :=
  current <- get_entropy ;;
  seeded <-
    match current with
    | None =>
        first <- randomBytes 2 ;;
        second <- randomBytes 2 ;;
        let uint8randomArr := [nth 0 first x00; nth 1 second x00] in
        let seed :=
          Z.lor (Z.shiftl (Z_of_byte (nth 0 uint8randomArr x00)) 8)
                (Z_of_byte (nth 1 uint8randomArr x00)) in
        set_entropy seed ;;;
        ret seed
    | Some v => ret v
    end ;;
  t <- Date_now ;;
  let incremented := seeded + 1 in
  set_entropy incremented ;;;
  ret (nonce_value t incremented).

(** Lines 55-67 of [crypt]: the AES key ([tag]), the IV and the check
    value derived from the nonce and the shared secret [S]. *)
Definition derive (nonce : Long) (S : Buffer) : KeyMaterial :=
  let ebuf := writeUint64 nonce in
  let ebuf := ebuf ++ to_binary (of_binary S) in
  let ebuf := to_binary (of_binary ebuf) in
  let encryption_key := sha512 ebuf in
  let iv := slice encryption_key 32 48 in
  let tag := slice encryption_key 0 32 in
  let check := sha256 encryption_key in
  let check := slice check 0 4 in
  let cbuf := to_binary (of_binary check) in
  let check := readUint32 cbuf in
  {| tag := tag; iv := iv; check := check |}.

(** The key material a [crypt] call with these keys works with when its
    nonce is the [Long] [nonce]. *)
Definition material (private_key : PrivateKey) (public_key : PublicKey)
    (nonce : Long) : KeyMaterial :=
  derive nonce (get_shared_secret private_key public_key).

(** [function crypt(private_key, public_key, nonce, message, checksum?)];
    [ebuf.writeUint64(nonce)] first takes its operand as a [Long]. *)
Definition crypt (private_key : PrivateKey) (public_key : PublicKey)
    (nonce : Nonce) (message : Message) (checksum : option Z) : M Crypted :=
  nonce <- lift (toLongObj nonce) ;;
  emit (SharedSecretDerived private_key public_key) ;;;
  let S := get_shared_secret private_key public_key in
  written <- lift (writeUint64_operand nonce) ;;
  let km := derive written S in
  message <-
    (if truthy_number checksum then
       if negb (strict_eq (check km) checksum) then throw InvalidNonce
       else cryptoJsDecrypt message (tag km) (iv km)
     else cryptoJsEncrypt message (tag km) (iv km)) ;;
  ret {| nonce := nonce; message := message; checksum := check km |}.

(** [export function encrypt(private_key, public_key, message, nonce)];
    [crypt] is handed the string that [uniqueNonce] returns. *)
Definition encrypt (private_key : PrivateKey) (public_key : PublicKey)
    (message : jsstring) (nonce : option Z) : M Crypted :=
  let message := framed message in
  fresh <- uniqueNonce ;;
  crypt private_key public_key (NString (Long_toString fresh))
    (MBuffer message) None.

(** [export function decrypt(private_key, public_key, nonce, message, checksum)] *)
Definition decrypt (private_key : PrivateKey) (public_key : PublicKey)
    (nonce : Nonce) (message : Message) (checksum : Z) : M Buffer :=
  r <- crypt private_key public_key nonce message (Some checksum) ;;
  let 'Build_Crypted _ decrypted _ := r in
  ret decrypted.

End WithCollaborators.

Arguments derive : simpl never.
Arguments material : simpl never.

End Aes.

(* ------------------------------------------------------------------ *)
(** ** [src/memo.ts] *)

Module Memo.

(** A key argument: a key object or its string form. *)
Inductive KeyArg (K : Type) :=
| KeyObject (k : K)
| KeyString (s : jsstring).
Arguments KeyObject {K} k.
Arguments KeyString {K} s.

(** A method call on a coerced key: the empty string has no such method. *)
Definition receiver {K} (o : option K) : M K :=
  match o with
  | Some k => ret k
  | None => throw TypeError
  end.

(** [new PublicKey(k.key)] *)
Definition new_PublicKey (k : Buffer) : PublicKey := {| key := k |}.

Section WithCollaborators.
Context {collab : Collaborators}.

(** [const toPrivateObj = (o) => (o ? o.key ? o : PrivateKey.fromString(o) : o)].
    The empty string is falsy and comes back as it is: [None]. *)
Definition toPrivateObj (o : KeyArg PrivateKey) : M (option PrivateKey) :=
  match o with
  | KeyObject k => ret (Some k)
  | KeyString [] => ret None
  | KeyString s =>
      match PrivateKey_fromString s with
      | Some k => ret (Some k)
      | None => throw InvalidKeyString
      end
  end.

(** [const toPublicObj = (o) => (o ? o.key ? o : PublicKey.fromString(o) : o)] *)
Definition toPublicObj (o : KeyArg PublicKey) : M (option PublicKey) :=
  match o with
  | KeyObject k => ret (Some k)
  | KeyString [] => ret None
  | KeyString s =>
      match PublicKey_fromString s with
      | Some k => ret (Some k)
      | None => throw InvalidKeyString
      end
  end.

(** [encode], up to the object handed to [Types.EncryptedMemo]
    (lines 17-31), for a memo that starts with the marker. *)
Definition encode_envelope (private_key : KeyArg PrivateKey)
    (public_key : KeyArg PublicKey) (memo : jsstring)
    (testNonce : option Z) : M Wire.Envelope :=
  let memo := substring1 memo in
  private_key <- toPrivateObj private_key ;;
  public_key <- toPublicObj public_key ;;
  r <-
    match private_key, public_key with
    | Some priv, Some pub => Aes.encrypt priv pub memo testNonce
    | _, _ =>
        (* Aes.encrypt draws the nonce, then the first method call on
           the string that is not a key throws *)
        Aes.uniqueNonce ;;; throw TypeError
    end ;;
  priv <- receiver private_key ;;
  pub <- receiver public_key ;;
  (* the serializer writes the nonce field with writeUint64 *)
  nonce <- lift (Aes.writeUint64_operand (Aes.nonce r)) ;;
  ret {| Wire.check := Aes.checksum r;
         Wire.encrypted := Aes.message r;
         Wire.from := createPublic priv;
         Wire.nonce := nonce;
         Wire.to := pub |}.

(** [function encode(private_key, public_key, memo, testNonce?)] *)
Definition encode (private_key : KeyArg PrivateKey)
    (public_key : KeyArg PublicKey) (memo : jsstring)
    (testNonce : option Z) : M jsstring :=
  if negb (startsWith_hash memo) then ret memo
  else
    envelope <- encode_envelope private_key public_key memo testNonce ;;
    let mbuf := EncryptedMemo envelope in
    (* mbuf.flip(); Buffer.from(mbuf.toBuffer()): the bytes written *)
    let data := mbuf in
    ret (hash :: bs58_encode data).

(** Lines 52-54 of [decode]: the key of the other party. *)
Definition counterparty (private_key : PrivateKey) (memo : Wire.Envelope)
    : PublicKey :=
  let pubkey := PublicKey_toString (createPublic private_key) in
  if JsString.eqb pubkey
       (PublicKey_toString (new_PublicKey (key (Wire.from memo))))
  then new_PublicKey (key (Wire.to memo))
  else new_PublicKey (key (Wire.from memo)).

(** Lines 57-67 of [decode]: strip the varint length prefix, or take the
    bytes as they are when that throws. *)
Definition unframe (memo : Buffer) : jsstring :=
  let mbuf := to_binary (of_binary memo) in
  match readVString mbuf with
  | Some text => hash :: text
  | None =>
      let memo := Utf8.decode (to_binary (of_binary mbuf)) in
      hash :: memo
  end.

(** [function decode(private_key, memo)] *)
Definition decode (private_key : KeyArg PrivateKey) (memo : jsstring)
    : M jsstring :=
  if negb (startsWith_hash memo) then ret memo
  else
    let memo := substring1 memo in
    private_key <- toPrivateObj private_key ;;
    memo <- match bs58_decode memo with
            | Some bytes => ret bytes
            | None => throw Base58Failure
            end ;;
    memo <- match EncryptedMemoD memo with
            | Some envelope => ret envelope
            | None => throw DeserializeFailure
            end ;;
    private_key <- receiver private_key ;;
    let otherpub := counterparty private_key memo in
    plain <- Aes.decrypt private_key otherpub (Aes.NLong (Wire.nonce memo))
               (Aes.MBuffer (Wire.encrypted memo)) (Wire.check memo) ;;
    ret (unframe plain).

End WithCollaborators.
End Memo.

(* ------------------------------------------------------------------ *)
(** ** The design document's own wording of two components *)

Module Design.
Section WithCollaborators.
Context {collab : Collaborators}.

(** [n] little-endian bytes of [v]. *)
Fixpoint le_bytes (n : nat) (v : Z) : Buffer :=
  match n with
  | O => []
  | S n' => byte_of_Z (v mod 256) :: le_bytes n' (v / 256)
  end.

(** The unsigned integer a little-endian byte sequence denotes. *)
Fixpoint le_value (buf : Buffer) : Z :=
  match buf with
  | [] => 0
  | b :: rest => Z_of_byte b + 256 * le_value rest
  end.

(** EncryptionKeyMaterial, as worded: the SHA-512 digest of the eight
    little-endian nonce bytes followed by the shared secret. *)
Definition EncryptionKeyMaterial (nonce : Z) (sharedSecret : Buffer) : Buffer :=
  sha512 (le_bytes 8 nonce ++ sharedSecret).

(** KeySchedule, as worded: "serialize nonce as 8 little-endian bytes,
    concatenate with sharedSecret bytes, compute SHA-512 digest;
    key = bytes[0:32], iv = bytes[32:48]; SHA-256 over the full
    material, first 4 bytes as a little-endian unsigned 32-bit
    integer". *)
Definition KeySchedule_derive (nonce : Z) (sharedSecret : Buffer)
    : Buffer * Buffer * Z :=
  let material := EncryptionKeyMaterial nonce sharedSecret in
  let key := firstn 32 material in
  let iv := firstn 16 (skipn 32 material) in
  let checksum := le_value (firstn 4 (sha256 material)) in
  (key, iv, checksum).

End WithCollaborators.

(** NonceGenerator, as worded: "each call increments entropy (wrapping
    modulo 65536) and combines it with the current time in
    milliseconds: nonce = (timestamp_ms << 16) | entropy".  Returns the
    nonce and the new entropy. *)
Definition NonceGenerator_next (entropy timestamp_ms : Z) : Z * Z :=
  let entropy' := (entropy + 1) mod 65536 in
  (Z.lor (Z.shiftl timestamp_ms 16 mod 2 ^ 64) entropy', entropy').

End Design.

(* ------------------------------------------------------------------ *)
(** ** A small implementation of the collaborators

    Used to run the embedded code on concrete inputs: two-byte keys with a
    symmetric "shared secret", padding digests, the identity as block
    cipher, Latin-1 as text codec and a fixed-layout envelope. *)

Module Toy.

Definition flip_byte (b : byte) : byte := byte_of_Z (255 - Z_of_byte b).

Fixpoint xor_buffers (a b : Buffer) : Buffer :=
  match a, b with
  | x :: a', y :: b' =>
      byte_of_Z (Z.lxor (Z_of_byte x) (Z_of_byte y)) :: xor_buffers a' b'
  | _, _ => []
  end.

Definition toy_createPublic (k : PrivateKey) : PublicKey :=
  {| key := map flip_byte (priv_key k) |}.

Definition toy_shared_secret (k : PrivateKey) (p : PublicKey) : Buffer :=
  xor_buffers (priv_key k) (map flip_byte (key p)).

Definition toy_digest (n : nat) (m : Buffer) : Buffer :=
  firstn n (m ++ repeat x01 n).

Definition is_latin1 (s : jsstring) : bool :=
  forallb (fun c => (0 <=? c) && (c <? 256)) s.

Definition toy_text_decode (s : jsstring) : option Buffer :=
  if is_latin1 s then Some (to_binary s) else None.

(** Fixed layout: two key bytes each for [from] and [to], eight bytes
    of nonce, four bytes of check, the rest is the ciphertext. *)
Definition toy_serialize (e : Wire.Envelope) : Buffer :=
  firstn 2 (key (Wire.from e) ++ [x00; x00])
  ++ firstn 2 (key (Wire.to e) ++ [x00; x00])
  ++ writeUint64 (Wire.nonce e)
  ++ write_half (Wire.check e)
  ++ Wire.encrypted e.

Definition toy_deserialize (buf : Buffer) : option Wire.Envelope :=
  if (length buf <? 16)%nat then None
  else
    Some {| Wire.from := {| key := slice buf 0 2 |};
            Wire.to := {| key := slice buf 2 4 |};
            Wire.nonce := Design.le_value (slice buf 4 12);
            Wire.check := Design.le_value (slice buf 12 16);
            Wire.encrypted := skipn 16 buf |}.

#[export] Instance collaborators : Collaborators := {|
  createPublic := toy_createPublic;
  get_shared_secret := toy_shared_secret;
  PrivateKey_fromString := fun s => Some {| priv_key := to_binary s |};
  PublicKey_fromString := fun s => Some {| key := to_binary s |};
  PublicKey_toString := fun p => of_binary (key p);
  sha512 := toy_digest 64;
  sha256 := toy_digest 32;
  aes_256_cbc_encrypt := fun _ _ plain => plain;
  aes_256_cbc_decrypt := fun _ _ cipher => Some cipher;
  bs58_encode := of_binary;
  bs58_decode := toy_text_decode;
  EncryptedMemo := toy_serialize;
  EncryptedMemoD := toy_deserialize
|}.

(** Two key pairs and a process state to run on. *)
Definition alice : PrivateKey := {| priv_key := [x11; x22] |}.
Definition bob : PrivateKey := {| priv_key := [x33; x44] |}.
Definition alice_pub : PublicKey := toy_createPublic alice.
Definition bob_pub : PublicKey := toy_createPublic bob.

Definition world0 : World :=
  {| unique_nonce_entropy := Some 7;
     now := 1700000000000;
     random := fun _ => x2a;
     drawn := 0;
     trace := [] |}.

(** An envelope from alice to bob under nonce 12345, carrying the right
    check value for their key material. *)
Definition envelope_of (cipher : Buffer) : Wire.Envelope :=
  {| Wire.from := alice_pub;
     Wire.to := bob_pub;
     Wire.nonce := 12345;
     Wire.check := Aes.check (Aes.material alice bob_pub 12345);
     Wire.encrypted := cipher |}.

(** "hello" with its length prefix, and "hi" without one. *)
Definition framed_envelope : Wire.Envelope :=
  envelope_of [x05; x68; x65; x6c; x6c; x6f].
Definition raw_envelope : Wire.Envelope := envelope_of [x68; x69].

(** The AES key and IV of alice and bob under nonce 12345. *)
Definition tag0 : Buffer := Aes.tag (Aes.material alice bob_pub 12345).
Definition iv0 : Buffer := Aes.iv (Aes.material alice bob_pub 12345).

(** The state after bob decrypted one of these envelopes. *)
Definition world_after_decrypt : World :=
  with_events world0
    [SharedSecretDerived bob alice_pub;
     DecipherCreated (Aes.tag (Aes.material bob alice_pub 12345))
       (Aes.iv (Aes.material bob alice_pub 12345))].

(** A process whose entropy counter stands at 65534. *)
Definition world_65534 : World :=
  {| unique_nonce_entropy := Some 65534;
     now := 1700000000000;
     random := fun _ => x2a;
     drawn := 0;
     trace := [] |}.

End Toy.
Export (hints) Toy.

(* ------------------------------------------------------------------ *)
(** ** Callers of the nonce generator *)

Module Loop.

(** The process when the clock reads [t]. *)
Definition at_time (w : World) (t : Z) : World :=
  {| unique_nonce_entropy := unique_nonce_entropy w;
     now := t; random := random w; drawn := drawn w;
     trace := trace w |}.

(** [uniqueNonce()] called in a loop, once per clock reading of [clock]:
    the nonces it returned, in order. *)
Fixpoint call_uniqueNonce (clock : list Z) (w : World) : list Long :=
  match clock with
  | [] => []
  | t :: later =>
      match Aes.uniqueNonce (at_time w t) with
      | (Ok nonce, w') => nonce :: call_uniqueNonce later w'
      | (Throw _, w') => call_uniqueNonce later w'
      end
  end.

End Loop.

(* ------------------------------------------------------------------ *)
(** ** More inputs for the toy collaborators *)

Module Samples.
Import Toy.

(** The toy collaborators with a decipher that, like AES-CBC, refuses a
    ciphertext whose length is not a multiple of the block size, and with
    key parsers that refuse a string holding a character above U+00FF. *)
Definition block_collaborators : Collaborators := {|
  createPublic := toy_createPublic;
  get_shared_secret := toy_shared_secret;
  PrivateKey_fromString := fun s =>
    if is_latin1 s then Some {| priv_key := to_binary s |} else None;
  PublicKey_fromString := fun s =>
    if is_latin1 s then Some {| key := to_binary s |} else None;
  PublicKey_toString := fun p => of_binary (key p);
  sha512 := toy_digest 64;
  sha256 := toy_digest 32;
  aes_256_cbc_encrypt := fun _ _ plain => plain;
  aes_256_cbc_decrypt := fun _ _ cipher =>
    if (Nat.modulo (length cipher) 16 =? 0)%nat then Some cipher else None;
  bs58_encode := of_binary;
  bs58_decode := toy_text_decode;
  EncryptedMemo := toy_serialize;
  EncryptedMemoD := toy_deserialize
|}.

(** The framed envelope with its check field overwritten. *)
Definition with_check (e : Wire.Envelope) (c : Z) : Wire.Envelope :=
  {| Wire.from := Wire.from e; Wire.to := Wire.to e;
     Wire.nonce := Wire.nonce e; Wire.check := c;
     Wire.encrypted := Wire.encrypted e |}.

Definition tampered_envelope : Wire.Envelope := with_check framed_envelope 999.
Definition zero_check_envelope : Wire.Envelope := with_check framed_envelope 0.

(** A third party. *)
Definition carol : PrivateKey := {| priv_key := [x55; x66] |}.

(** The serialized envelopes. *)
Definition framed_bytes : Buffer := toy_serialize framed_envelope.
Definition tampered_bytes : Buffer := toy_serialize tampered_envelope.
Definition zero_check_bytes : Buffer := toy_serialize zero_check_envelope.

End Samples.

(* ------------------------------------------------------------------ *)
(** * Properties *)

(** ** The library models on a few inputs *)

Example utf8_e_acute : Utf8.encode [233] = [xc3; xa9].
Proof. reflexivity. Qed.

Example utf8_decode_e_acute : Utf8.decode [xc3; xa9] = [233].
Proof. reflexivity. Qed.

Example utf8_decode_truncated : Utf8.decode [x61; xc3] = [97; 0xFFFD].
Proof. reflexivity. Qed.

Example vstring_hello :
  writeVString (lit "hello") = [x05; x68; x65; x6c; x6c; x6f].
Proof. reflexivity. Qed.

Example read_vstring_hello :
  readVString [x05; x68; x65; x6c; x6c; x6f] = Some (lit "hello").
Proof. reflexivity. Qed.

Example read_vstring_short : readVString [x05; x68] = None.
Proof. reflexivity. Qed.

Example read_vstring_empty : readVString [] = None.
Proof. reflexivity. Qed.

(** ** Binary strings, and the toy collaborators *)

Module BinaryString.

Lemma byte_of_Z_of_byte (b : byte) : byte_of_Z (Z_of_byte b) = b.
Proof. destruct b; reflexivity. Qed.

Lemma Z_of_byte_range (b : byte) : 0 <= Z_of_byte b < 256.
Proof. destruct b; vm_compute; split; congruence. Qed.

(** [Buffer.from(buf.toString('binary'), 'binary')] gives the bytes back. *)
Lemma to_binary_of_binary (buf : Buffer) : to_binary (of_binary buf) = buf.
Proof.
  unfold to_binary, of_binary.
  induction buf as [|b buf IH]; simpl; [reflexivity|].
  now rewrite byte_of_Z_of_byte, IH.
Qed.

End BinaryString.
Import BinaryString.

Module ToyLaws.
Import Toy.

Lemma toy_digest_length (n : nat) (m : Buffer) :
  length (toy_digest n m) = n.
Proof.
  unfold toy_digest.
  rewrite length_firstn, length_app, repeat_length. lia.
Qed.

Lemma toy_text_roundtrip (buf : Buffer) :
  toy_text_decode (of_binary buf) = Some buf.
Proof.
  unfold toy_text_decode.
  assert (L : is_latin1 (of_binary buf) = true).
  { unfold is_latin1, of_binary. apply forallb_forall.
    intros c In. apply in_map_iff in In as [b [<- _]].
    pose proof (Z_of_byte_range b).
    apply andb_true_iff. split; [apply Z.leb_le|apply Z.ltb_lt]; lia. }
  now rewrite L, to_binary_of_binary.
Qed.

Lemma toy_toString_inj (p q : PublicKey) :
  of_binary (key p) = of_binary (key q) -> p = q.
Proof.
  intros E. apply (f_equal to_binary) in E.
  rewrite !to_binary_of_binary in E.
  destruct p, q; simpl in E; now subst.
Qed.

Lemma toy_digests : digests_have_fixed_width (collab := Toy.collaborators).
Proof. split; intros m; apply toy_digest_length. Qed.

Lemma toy_key_strings :
  key_strings_identify_keys (collab := Toy.collaborators).
Proof. intros p q. apply toy_toString_inj. Qed.

End ToyLaws.

(** ** Running the monad *)

Lemma with_events_app (w : World) (a b : list Event) :
  with_events (with_events w a) b = with_events w (a ++ b).
Proof. unfold with_events; simpl. now rewrite app_assoc. Qed.

Lemma bind_ok {A B} (m : M A) (f : A -> M B) (w w' : World) (a : A) :
  m w = (Ok a, w') -> bind m f w = f a w'.
Proof. intros E. unfold bind. now rewrite E. Qed.

Lemma Ok_inj {A} (a b : A) : Ok a = Ok b -> a = b.
Proof. now intros [= ->]. Qed.

Lemma run_inj {A} (a b : A) (w w' : World) :
  (Ok a, w) = (Ok b, w') -> a = b /\ w = w'.
Proof.
  intros E. apply pair_equal_spec in E as [E1 E2].
  split; [now apply Ok_inj|exact E2].
Qed.

Lemma bind_throw {A B} (m : M A) (f : A -> M B) (w w' : World) (e : Error) :
  m w = (Throw e, w') -> bind m f w = (Throw e, w').
Proof. intros E. unfold bind. now rewrite E. Qed.

(** ** The cipher primitives and their guard *)

Section Primitives.
Context {collab : Collaborators}.

Lemma cryptoJsEncrypt_truthy (m : Aes.Message) (tag iv : Buffer) (w : World) :
  Aes.truthy m = true ->
  Aes.cryptoJsEncrypt m tag iv w
  = (Ok (aes_256_cbc_encrypt tag iv (Aes.binary_of m)),
     with_events w [CipherCreated tag iv]).
Proof.
  intros T. unfold Aes.cryptoJsEncrypt, Aes.toBinaryBuffer.
  rewrite T. destruct m as [|s|b]; try discriminate; reflexivity.
Qed.

Lemma cryptoJsDecrypt_truthy (m : Aes.Message) (tag iv : Buffer) (w : World) :
  Aes.truthy m = true ->
  Aes.cryptoJsDecrypt m tag iv w
  = (match aes_256_cbc_decrypt tag iv (Aes.binary_of m) with
     | Some plain => Ok plain
     | None => Throw DecipherFailure
     end,
     with_events w [DecipherCreated tag iv]).
Proof.
  intros T. unfold Aes.cryptoJsDecrypt, Aes.toBinaryBuffer.
  rewrite T.
  destruct m as [|s|b]; try discriminate; simpl;
    unfold bind; simpl;
    now destruct (aes_256_cbc_decrypt _ _ _).
Qed.

Lemma cryptoJsEncrypt_falsy (m : Aes.Message) (tag iv : Buffer) (w : World) :
  Aes.truthy m = false ->
  Aes.cryptoJsEncrypt m tag iv w = (Throw MissingPlainText, w).
Proof. intros T. unfold Aes.cryptoJsEncrypt. now rewrite T. Qed.

Lemma cryptoJsDecrypt_falsy (m : Aes.Message) (tag iv : Buffer) (w : World) :
  Aes.truthy m = false ->
  Aes.cryptoJsDecrypt m tag iv w = (Throw MissingCipherText, w).
Proof. intros T. unfold Aes.cryptoJsDecrypt. now rewrite T. Qed.

End Primitives.

(** ** [Long] values and their decimal strings *)

Module LongTextLaws.

Lemma wrap_wrap (v : Z) : Long_wrap (Long_wrap v) = Long_wrap v.
Proof. unfold Long_wrap. apply Z.mod_mod. discriminate. Qed.

Lemma is_digit_range (c : Z) : is_digit c = true -> 48 <= c <= 57.
Proof.
  unfold is_digit. intros H. apply andb_true_iff in H as [A B].
  apply Z.leb_le in A, B. lia.
Qed.

Lemma digits_value_app (a : Z) (s t : jsstring) :
  digits s -> digits_value a (s ++ t) = digits_value (digits_value a s) t.
Proof.
  intros D. revert a. induction D as [|c s Hc D IH]; intros a; [reflexivity|].
  cbn [app digits_value]. rewrite Hc. apply IH.
Qed.

Lemma digits_value_acc (a : Z) (s : jsstring) :
  digits s ->
  digits_value a s = a * 10 ^ Z.of_nat (length s) + digits_value 0 s.
Proof.
  intros D. revert a. induction D as [|c s Hc D IH]; intros a.
  - cbn [digits_value length]. change (10 ^ Z.of_nat 0) with 1. lia.
  - cbn [digits_value length]. rewrite Hc.
    rewrite (IH (a * 10 + (c - 48))), (IH (0 * 10 + (c - 48))).
    rewrite Nat2Z.inj_succ, Z.pow_succ_r by lia. ring.
Qed.

Lemma digits_lsf_spec (fuel : nat) :
  forall n, 0 <= n < 10 ^ Z.of_nat fuel ->
  digits (digits_lsf fuel n)
  /\ digits_value 0 (rev (digits_lsf fuel n)) = n.
Proof.
  induction fuel as [|f IH]; intros n R.
  - change (10 ^ Z.of_nat 0) with 1 in R. assert (n = 0) by lia. subst.
    split; [constructor|reflexivity].
  - rewrite Nat2Z.inj_succ, Z.pow_succ_r in R by lia.
    pose proof (Z.mod_pos_bound n 10 ltac:(lia)) as Rm.
    pose proof (Z.div_mod n 10 ltac:(lia)) as Dm.
    assert (Hd : is_digit (48 + n mod 10) = true).
    { unfold is_digit. apply andb_true_iff; split; apply Z.leb_le; lia. }
    cbn [digits_lsf]. destruct (Z.eqb_spec (n / 10) 0) as [Z0|NZ].
    + split; [repeat constructor; exact Hd|].
      cbn [rev app digits_value]. rewrite Hd. lia.
    + assert (R' : 0 <= n / 10 < 10 ^ Z.of_nat f).
      { split; [apply Z.div_pos; lia|apply Z.div_lt_upper_bound; lia]. }
      destruct (IH (n / 10) R') as [D V].
      split; [constructor; assumption|].
      cbn [rev]. rewrite digits_value_app by (apply Forall_rev; exact D).
      rewrite V. cbn [digits_value]. rewrite Hd. lia.
Qed.

(** The decimal string of an integer below 10^20: digits only, at least
    one, with the integer as value. *)
Lemma decimal_spec (n : Z) :
  0 <= n < 10 ^ 20 ->
  exists c rest,
    decimal n = c :: rest /\ digits (c :: rest)
    /\ digits_value 0 (c :: rest) = n.
Proof.
  intros R. destruct (digits_lsf_spec 20 n R) as [D V].
  unfold decimal in *.
  destruct (rev (digits_lsf 20 n)) as [|c rest] eqn:E.
  - apply (f_equal (@length Z)) in E. rewrite length_rev in E.
    cbn [digits_lsf length] in E. discriminate E.
  - exists c, rest. split; [reflexivity|]. split; [|exact V].
    rewrite <- E. apply Forall_rev. exact D.
Qed.

Lemma white_not_digit (c : Z) :
  is_digit c = true -> StrWhiteSpaceChar c = false.
Proof.
  intros H. apply is_digit_range in H. unfold StrWhiteSpaceChar.
  cbn [existsb].
  repeat match goal with
         | |- context [Z.eqb c ?k] =>
             replace (Z.eqb c k) with false
               by (symmetry; apply Z.eqb_neq; lia)
         end.
  replace (0x2000 <=? c) with false by (symmetry; apply Z.leb_gt; lia).
  reflexivity.
Qed.

Lemma parseInt_digits (c : Z) (rest : jsstring) :
  digits (c :: rest) ->
  parseInt (c :: rest) = Some (digits_value 0 (c :: rest)).
Proof.
  intros D. pose proof (Forall_inv D) as Hc. cbv beta in Hc.
  pose proof (is_digit_range _ Hc) as R.
  unfold parseInt. cbn [skip_white]. rewrite (white_not_digit _ Hc).
  replace (c =? minus) with false
    by (symmetry; apply Z.eqb_neq; unfold minus; lia).
  replace (c =? 43) with false by (symmetry; apply Z.eqb_neq; lia).
  rewrite Hc. now rewrite Z.mul_1_l.
Qed.

Lemma loop_step (r S C P T : Z) :
  Long_wrap (Long_add (Long_mul r (Long_fromNumber S)) (Long_fromNumber C)
             * P + T)
  = Long_wrap ((r * S + C) * P + T).
Proof.
  unfold Long_add, Long_mul, Long_fromNumber, Long_wrap.
  assert (E : ((r * (S mod 2 ^ 64)) mod 2 ^ 64 + C mod 2 ^ 64) mod 2 ^ 64
              = (r * S + C) mod 2 ^ 64).
  { rewrite <- Z.add_mod by discriminate.
    rewrite (Z.add_mod (r * (S mod 2 ^ 64)) C) by discriminate.
    rewrite Z.mul_mod_idemp_r by discriminate.
    now rewrite <- Z.add_mod by discriminate. }
  rewrite E.
  rewrite (Z.add_mod ((r * S + C) mod 2 ^ 64 * P) T) by discriminate.
  rewrite Z.mul_mod_idemp_l by discriminate.
  now rewrite <- Z.add_mod by discriminate.
Qed.

(** On digits the loop of [Long.fromString] computes the value of the
    digits, modulo 2^64. *)
Lemma fromString_loop_digits (fuel : nat) :
  forall (str : jsstring) (r : Z),
    digits str -> (length str <= fuel)%nat ->
    Long_wrap (fromString_loop fuel str r)
    = Long_wrap (r * 10 ^ Z.of_nat (length str) + digits_value 0 str).
Proof.
  induction fuel as [|f IH]; intros str r D L.
  - destruct str; [|cbn [length] in L; lia].
    cbn [fromString_loop length digits_value].
    change (10 ^ Z.of_nat 0) with 1. f_equal. lia.
  - destruct str as [|c rest0] eqn:Estr.
    + cbn [fromString_loop length digits_value].
      change (10 ^ Z.of_nat 0) with 1. f_equal. lia.
    + rewrite <- Estr in *. cbn [fromString_loop]. rewrite Estr at 1.
      cbv zeta.
      set (size := Nat.min 8 (length str)).
      assert (Rsize : (1 <= size <= length str)%nat).
      { subst size. rewrite Estr. cbn [length]. lia. }
      pose proof (firstn_skipn size str) as Split.
      assert (Lc : length (firstn size str) = size)
        by (rewrite length_firstn; lia).
      assert (Lt : length (skipn size str) = (length str - size)%nat)
        by apply length_skipn.
      assert (Dboth : digits (firstn size str ++ skipn size str))
        by (rewrite Split; exact D).
      apply Forall_app in Dboth as [Dc Dt].
      destruct (firstn size str) as [|c1 chunk] eqn:Echunk;
        [cbn [length] in Lc; lia|].
      rewrite (parseInt_digits c1 chunk Dc).
      cbn [Long_fromParsed].
      rewrite (IH _ _ Dt) by lia.
      rewrite loop_step. f_equal.
      rewrite <- Split at 3 4.
      rewrite (digits_value_app 0 _ _ Dc).
      rewrite (digits_value_acc (digits_value 0 (c1 :: chunk)) _ Dt).
      rewrite length_app, Nat2Z.inj_add, Z.pow_add_r by lia.
      rewrite Lc. ring.
Qed.

Lemma digits_no_minus (s : jsstring) :
  digits s -> existsb (Z.eqb minus) s = false.
Proof.
  induction 1 as [|c s Hc D IH]; [reflexivity|].
  apply is_digit_range in Hc. cbn [existsb]. rewrite IH.
  replace (minus =? c) with false
    by (symmetry; apply Z.eqb_neq; unfold minus; lia).
  reflexivity.
Qed.

Lemma not_a_number_digit (c : Z) (rest : jsstring) :
  is_digit c = true -> not_a_number (c :: rest) = false.
Proof.
  intros H. apply is_digit_range in H. unfold not_a_number.
  change (lit "NaN") with [78; 97; 78].
  change (lit "Infinity") with [73; 110; 102; 105; 110; 105; 116; 121].
  change (lit "+Infinity") with [43; 73; 110; 102; 105; 110; 105; 116; 121].
  change (lit "-Infinity") with [45; 73; 110; 102; 105; 110; 105; 116; 121].
  cbn [existsb JsString.eqb].
  repeat match goal with
         | |- context [Z.eqb c ?k] =>
             replace (Z.eqb c k) with false
               by (symmetry; apply Z.eqb_neq; lia)
         end.
  reflexivity.
Qed.

Lemma not_a_number_minus_digit (c : Z) (rest : jsstring) :
  is_digit c = true -> not_a_number (minus :: c :: rest) = false.
Proof.
  intros H. apply is_digit_range in H. unfold not_a_number.
  change (lit "NaN") with [78; 97; 78].
  change (lit "Infinity") with [73; 110; 102; 105; 110; 105; 116; 121].
  change (lit "+Infinity") with [43; 73; 110; 102; 105; 110; 105; 116; 121].
  change (lit "-Infinity") with [45; 73; 110; 102; 105; 110; 105; 116; 121].
  cbn [existsb JsString.eqb].
  change (minus =? 78) with false. change (minus =? 73) with false.
  change (minus =? 43) with false. change (minus =? 45) with true.
  replace (c =? 73) with false by (symmetry; apply Z.eqb_neq; lia).
  reflexivity.
Qed.

Lemma Long_fromString_cons (c : Z) (rest : jsstring) :
  Long_fromString (c :: rest)
  = if not_a_number (c :: rest) then Ok 0
    else if c =? minus then
      match Long_fromString rest with
      | Ok v => Ok (Long_neg v)
      | Throw e => Throw e
      end
    else if existsb (Z.eqb minus) rest then Throw LongInteriorHyphen
    else Ok (fromString_loop (length (c :: rest)) (c :: rest) 0).
Proof. reflexivity. Qed.

(** [Long.fromString] on a string of digits. *)
Lemma Long_fromString_digits (c : Z) (rest : jsstring) :
  digits (c :: rest) ->
  Long_fromString (c :: rest) = Ok (Long_wrap (digits_value 0 (c :: rest))).
Proof.
  intros D. pose proof (Forall_inv D) as Hc. cbv beta in Hc.
  pose proof (Forall_inv_tail D) as Dr.
  pose proof (is_digit_range _ Hc) as R.
  rewrite Long_fromString_cons, (not_a_number_digit c rest Hc).
  replace (c =? minus) with false
    by (symmetry; apply Z.eqb_neq; unfold minus; lia).
  rewrite (digits_no_minus rest Dr). f_equal.
  assert (W : forall fuel str r,
             Long_wrap r = r ->
             Long_wrap (fromString_loop fuel str r)
             = fromString_loop fuel str r).
  { induction fuel as [|f IH]; intros str r Hr; [exact Hr|].
    cbn [fromString_loop]. destruct str; [exact Hr|].
    apply IH. unfold Long_add. apply wrap_wrap. }
  rewrite <- (W _ _ 0 eq_refl).
  rewrite (fromString_loop_digits _ _ 0 D (le_n _)).
  reflexivity.
Qed.

Lemma signed_range (v : Z) : - 2 ^ 63 <= Long_signed v < 2 ^ 63.
Proof.
  unfold Long_signed.
  pose proof (Z.mod_pos_bound (v + 2 ^ 63) (2 ^ 64) ltac:(lia)) as B.
  change (2 ^ 64) with (2 * 2 ^ 63) in *. lia.
Qed.

Lemma signed_wrap (v : Z) : Long_wrap (Long_signed v) = Long_wrap v.
Proof.
  unfold Long_signed, Long_wrap.
  rewrite Zminus_mod_idemp_l. f_equal. lia.
Qed.

(** Reading back what [toString] printed gives the same 64 bits. *)
Lemma fromString_toString (v : Z) :
  Long_fromString (Long_toString v) = Ok (Long_wrap v).
Proof.
  unfold Long_toString. cbv zeta.
  pose proof (signed_range v) as R. rewrite <- (signed_wrap v).
  set (s := Long_signed v) in *.
  assert (B : 2 ^ 63 < 10 ^ 20) by reflexivity.
  destruct (Z.ltb_spec s 0) as [Neg|Pos].
  - destruct (decimal_spec (- s)) as [c [rest [E [D V]]]]; [lia|].
    rewrite E. pose proof (Forall_inv D) as Hc. cbv beta in Hc.
    rewrite Long_fromString_cons, (not_a_number_minus_digit c rest Hc).
    change (minus =? minus) with true. cbv iota.
    rewrite (Long_fromString_digits c rest D), V.
    f_equal. unfold Long_neg, Long_wrap.
    change (- ((- s) mod 2 ^ 64)) with (0 - (- s) mod 2 ^ 64).
    rewrite Zminus_mod_idemp_r. f_equal. lia.
  - destruct (decimal_spec s) as [c [rest [E [D V]]]]; [lia|].
    rewrite E. now rewrite (Long_fromString_digits c rest D), V.
Qed.

(** [toString] never prints the empty string, and prints different
    strings for different 64-bit values. *)
Lemma toString_not_empty (v : Z) : Long_toString v <> [].
Proof.
  intros E. pose proof (fromString_toString v) as F. rewrite E in F.
  discriminate F.
Qed.

Lemma toString_inj (a b : Z) :
  Long_toString a = Long_toString b -> Long_wrap a = Long_wrap b.
Proof.
  intros E. pose proof (fromString_toString a) as F.
  rewrite E, fromString_toString in F. now injection F.
Qed.

End LongTextLaws.
Import LongTextLaws.

(** On concrete values: the string of the generator's nonce in
    [Toy.world0], a pattern with the top bit set, and what
    [Long.fromString] reads or refuses. *)
Example long_to_string :
  Long_toString 111411200000000008 = lit "111411200000000008"
  /\ Long_toString (2 ^ 64 - 1) = lit "-1".
Proof. split; vm_compute; reflexivity. Qed.

Example long_from_string :
  Long_fromString (lit "12345") = Ok 12345
  /\ Long_fromString (lit "-1") = Ok (2 ^ 64 - 1)
  /\ Long_fromString (lit "1-2") = Throw LongInteriorHyphen
  /\ Long_fromString [] = Throw LongEmptyString.
Proof. repeat split; vm_compute; reflexivity. Qed.

(** [toLongObj] by kind of value: a [Long] and a falsy value come back
    as they are, a string is read, a number other than 0 is refused. *)
Example toLongObj_by_kind :
  Aes.toLongObj (Aes.NLong 12345) = Ok (Aes.NLong 12345)
  /\ Aes.toLongObj (Aes.NString (lit "12345")) = Ok (Aes.NLong 12345)
  /\ Aes.toLongObj (Aes.NNumber 12345) = Throw TypeError
  /\ Aes.toLongObj (Aes.NNumber 0) = Ok (Aes.NNumber 0)
  /\ Aes.toLongObj Aes.NUndefined = Ok Aes.NUndefined
  /\ Aes.toLongObj (Aes.NString []) = Ok (Aes.NString []).
Proof. repeat split; vm_compute; reflexivity. Qed.

(** ** [crypt], branch by branch *)

Lemma land_shiftr_wrap (v k : Z) :
  0 <= k <= 32 ->
  Z.land (Z.shiftr (v mod 2 ^ 64) k) 0xFFFFFFFF
  = Z.land (Z.shiftr v k) 0xFFFFFFFF.
Proof.
  intros R. apply Z.bits_inj'. intros i Hi.
  rewrite !Z.land_spec, !Z.shiftr_spec by lia.
  change 0xFFFFFFFF with (Z.ones 32).
  destruct (Z.ltb_spec i 32) as [Low|High].
  - now rewrite Z.mod_pow2_bits_low by lia.
  - rewrite Z.ones_spec_high by lia. now rewrite !andb_false_r.
Qed.

(** [writeUint64] stores the low 64 bits of its operand. *)
Lemma writeUint64_wrap (v : Z) : writeUint64 (Long_wrap v) = writeUint64 v.
Proof.
  unfold writeUint64, Long_low, Long_high, Long_wrap.
  rewrite (land_shiftr_wrap v 32) by lia.
  pose proof (land_shiftr_wrap v 0 ltac:(lia)) as L.
  rewrite !Z.shiftr_0_r in L. now rewrite L.
Qed.

Section Crypt.
Context {collab : Collaborators}.

Lemma derive_wrap (n : Long) (S : Buffer) :
  Aes.derive (Long_wrap n) S = Aes.derive n S.
Proof. unfold Aes.derive. now rewrite writeUint64_wrap. Qed.

Lemma material_wrap (priv : PrivateKey) (pub : PublicKey) (n : Long) :
  Aes.material priv pub (Long_wrap n) = Aes.material priv pub n.
Proof. unfold Aes.material. apply derive_wrap. Qed.

(** A [Long] is taken as it is; the string [toString] printed is read
    back as the same 64 bits. *)
Lemma toLongObj_long (n : Long) :
  Aes.toLongObj (Aes.NLong n) = Ok (Aes.NLong n).
Proof. reflexivity. Qed.

Lemma toLongObj_printed (n : Long) :
  Aes.toLongObj (Aes.NString (Long_toString n))
  = Ok (Aes.NLong (Long_wrap n)).
Proof.
  unfold Aes.toLongObj. pose proof (toString_not_empty n) as NE.
  pose proof (fromString_toString n) as F.
  destruct (Long_toString n) as [|c rest]; [contradiction|].
  cbn [Aes.truthy_nonce Aes.Long_fromString_of]. now rewrite F.
Qed.

(** [crypt] on a nonce that [toLongObj] turns into the [Long] [n]: the
    shared secret is derived, and the rest works with the key material
    of [n]. *)
Lemma crypt_long (priv : PrivateKey) (pub : PublicKey) (o : Aes.Nonce)
    (n : Long) (m : Aes.Message) (checksum : option Z) (w : World) :
  Aes.toLongObj o = Ok (Aes.NLong n) ->
  Aes.crypt priv pub o m checksum w
  = (let km := Aes.material priv pub n in
     message <-
       (if Aes.truthy_number checksum then
          if negb (Aes.strict_eq (Aes.check km) checksum)
          then throw InvalidNonce
          else Aes.cryptoJsDecrypt m (Aes.tag km) (Aes.iv km)
        else Aes.cryptoJsEncrypt m (Aes.tag km) (Aes.iv km)) ;;
     ret {| Aes.nonce := Aes.NLong n; Aes.message := message;
            Aes.checksum := Aes.check km |})
      (with_events w [SharedSecretDerived priv pub]).
Proof.
  intros H. unfold Aes.crypt, Aes.material.
  unfold bind at 1. unfold lift at 1. rewrite H.
  unfold bind at 1. unfold emit at 1.
  unfold bind at 1. unfold lift at 1. cbn [Aes.writeUint64_operand].
  reflexivity.
Qed.

(** A falsy checksum selects encryption. *)
Lemma crypt_falsy_checksum (priv : PrivateKey) (pub : PublicKey)
    (o : Aes.Nonce) (n : Long) (m : Aes.Message) (checksum : option Z)
    (w : World) :
  Aes.toLongObj o = Ok (Aes.NLong n) ->
  Aes.truthy_number checksum = false ->
  Aes.truthy m = true ->
  let km := Aes.material priv pub n in
  Aes.crypt priv pub o m checksum w
  = (Ok {| Aes.nonce := Aes.NLong n;
           Aes.message :=
             aes_256_cbc_encrypt (Aes.tag km) (Aes.iv km) (Aes.binary_of m);
           Aes.checksum := Aes.check km |},
     with_events w [SharedSecretDerived priv pub;
                    CipherCreated (Aes.tag km) (Aes.iv km)]).
Proof.
  intros H F T km. rewrite (crypt_long priv pub o n m checksum w H).
  cbv zeta. fold km. clearbody km.
  rewrite F. unfold bind. rewrite (cryptoJsEncrypt_truthy _ _ _ _ T).
  simpl. now rewrite with_events_app.
Qed.

Lemma crypt_falsy_checksum_missing (priv : PrivateKey) (pub : PublicKey)
    (o : Aes.Nonce) (n : Long) (m : Aes.Message) (checksum : option Z)
    (w : World) :
  Aes.toLongObj o = Ok (Aes.NLong n) ->
  Aes.truthy_number checksum = false ->
  Aes.truthy m = false ->
  Aes.crypt priv pub o m checksum w
  = (Throw MissingPlainText, with_events w [SharedSecretDerived priv pub]).
Proof.
  intros H F T. rewrite (crypt_long priv pub o n m checksum w H).
  cbv zeta. generalize (Aes.material priv pub n). intros km.
  rewrite F. unfold bind. now rewrite (cryptoJsEncrypt_falsy _ _ _ _ T).
Qed.

(** A truthy checksum that differs from the derived one is refused
    before any decipher exists. *)
Lemma crypt_checksum_mismatch (priv : PrivateKey) (pub : PublicKey)
    (o : Aes.Nonce) (n : Long) (m : Aes.Message) (expected : Z) (w : World) :
  Aes.toLongObj o = Ok (Aes.NLong n) ->
  expected <> 0 ->
  expected <> Aes.check (Aes.material priv pub n) ->
  Aes.crypt priv pub o m (Some expected) w
  = (Throw InvalidNonce, with_events w [SharedSecretDerived priv pub]).
Proof.
  intros H NZ NE. rewrite (crypt_long priv pub o n m _ w H). cbv zeta.
  generalize dependent (Aes.material priv pub n). intros km NE.
  cbn [Aes.truthy_number Aes.strict_eq].
  destruct (Z.eqb_spec expected 0) as [|_]; [contradiction|].
  destruct (Z.eqb_spec (Aes.check km) expected) as [E|_]; [now subst|].
  reflexivity.
Qed.

(** A truthy checksum equal to the derived one selects decryption. *)
Lemma crypt_checksum_match (priv : PrivateKey) (pub : PublicKey)
    (o : Aes.Nonce) (n : Long) (m : Aes.Message) (expected : Z) (w : World) :
  Aes.toLongObj o = Ok (Aes.NLong n) ->
  expected <> 0 ->
  expected = Aes.check (Aes.material priv pub n) ->
  Aes.truthy m = true ->
  let km := Aes.material priv pub n in
  Aes.crypt priv pub o m (Some expected) w
  = (match aes_256_cbc_decrypt (Aes.tag km) (Aes.iv km) (Aes.binary_of m) with
     | Some plain =>
         Ok {| Aes.nonce := Aes.NLong n; Aes.message := plain;
               Aes.checksum := Aes.check km |}
     | None => Throw DecipherFailure
     end,
     with_events w [SharedSecretDerived priv pub;
                    DecipherCreated (Aes.tag km) (Aes.iv km)]).
Proof.
  intros H NZ E T km. rewrite (crypt_long priv pub o n m _ w H). cbv zeta.
  fold km. fold km in E. clearbody km.
  cbn [Aes.truthy_number Aes.strict_eq].
  destruct (Z.eqb_spec expected 0) as [|_]; [contradiction|].
  destruct (Z.eqb_spec (Aes.check km) expected) as [_|NE]; [|now subst].
  cbn [negb]. unfold bind. rewrite (cryptoJsDecrypt_truthy _ _ _ _ T).
  rewrite with_events_app. cbn [app].
  now destruct (aes_256_cbc_decrypt _ _ _).
Qed.


(** [decrypt] hands back the message of [crypt]. *)
Lemma decrypt_of_crypt (priv : PrivateKey) (pub : PublicKey) (o : Aes.Nonce)
    (m : Aes.Message) (expected : Z) (w : World) :
  Aes.decrypt priv pub o m expected w
  = match Aes.crypt priv pub o m (Some expected) w with
    | (Ok r, w') => (Ok (Aes.message r), w')
    | (Throw e, w') => (Throw e, w')
    end.
Proof.
  unfold Aes.decrypt, bind.
  destruct (Aes.crypt _ _ _ _ _ _) as [[r|e] w']; [now destruct r|reflexivity].
Qed.

End Crypt.


(* ------------------------------------------------------------------ *)
(** ** C9: the missing-input guard of the cipher primitives *)

(** C9, as stated, at an explicit input: an empty [Buffer] is an empty
    plaintext/ciphertext, yet neither primitive raises the missing-input
    error for it; both go on and create their cipher (here with the
    32-byte key and 16-byte IV of alice and bob under nonce 12345). *)
Lemma empty_buffer_reaches_the_cipher :
  Aes.truthy (Aes.MBuffer []) = true
  /\ fst (Aes.cryptoJsEncrypt (Aes.MBuffer []) Toy.tag0 Toy.iv0 Toy.world0)
     = Ok (aes_256_cbc_encrypt Toy.tag0 Toy.iv0 [])
  /\ trace (snd (Aes.cryptoJsEncrypt (Aes.MBuffer []) Toy.tag0 Toy.iv0
                   Toy.world0))
     = [CipherCreated Toy.tag0 Toy.iv0]
  /\ fst (Aes.cryptoJsDecrypt (Aes.MBuffer []) Toy.tag0 Toy.iv0 Toy.world0)
     <> Throw MissingCipherText
  /\ trace (snd (Aes.cryptoJsDecrypt (Aes.MBuffer []) Toy.tag0 Toy.iv0
                   Toy.world0))
     = [DecipherCreated Toy.tag0 Toy.iv0].
Proof. repeat split; try reflexivity. vm_compute. discriminate. Qed.

(** C9, amended: when the input of a cipher primitive is absent
    ([undefined]) or the empty string, the primitive fails with its
    missing-input error and the state is untouched: no cipher or decipher
    was created. *)
Theorem missing_input_rejected_before_cipher {collab : Collaborators}
    (m : Aes.Message) (tag iv : Buffer) (w : World) :
  m = Aes.MUndefined \/ m = Aes.MString [] ->
  Aes.cryptoJsEncrypt m tag iv w = (Throw MissingPlainText, w)
  /\ Aes.cryptoJsDecrypt m tag iv w = (Throw MissingCipherText, w).
Proof.
  intros [-> | ->]; split;
    (apply cryptoJsEncrypt_falsy || apply cryptoJsDecrypt_falsy);
    reflexivity.
Qed.

(** The guard at work: the empty string, with the key and IV of alice and
    bob. *)
Lemma missing_input_rejected_witness :
  (Aes.MString [] = Aes.MUndefined \/ Aes.MString [] = Aes.MString [])
  /\ (Aes.cryptoJsEncrypt (Aes.MString []) Toy.tag0 Toy.iv0 Toy.world0
      = (Throw MissingPlainText, Toy.world0)
      /\ Aes.cryptoJsDecrypt (Aes.MString []) Toy.tag0 Toy.iv0 Toy.world0
         = (Throw MissingCipherText, Toy.world0)).
Proof.
  split.
  - right; reflexivity.
  - apply (missing_input_rejected_before_cipher (collab := Toy.collaborators)).
    right; reflexivity.
Defined.

(* ------------------------------------------------------------------ *)
(** ** C10: a zero checksum turns [decrypt] into an encryption *)

(** C10, as stated, at two explicit inputs, both with expected checksum
    0.  With the number 12345 as nonce (the type [crypt] declares)
    [toLongObj] hands the number to [Long.fromString], which throws a
    TypeError before anything else happens.  With the string "12345" as
    nonce and the empty string as ciphertext the encryption branch is
    taken and its guard raises an error. *)
Lemma zero_checksum_call_throws :
  Aes.decrypt Toy.alice Toy.bob_pub (Aes.NNumber 12345)
    (Aes.MBuffer [x41; x42]) 0 Toy.world0
  = (Throw TypeError, Toy.world0)
  /\ Aes.decrypt Toy.alice Toy.bob_pub (Aes.NString (lit "12345"))
       (Aes.MString []) 0 Toy.world0
     = (Throw MissingPlainText,
        with_events Toy.world0 [SharedSecretDerived Toy.alice Toy.bob_pub]).
Proof. split; reflexivity. Qed.

(** C10, amended: for every [decrypt] call whose expected checksum is 0,
    whose nonce is a [Long] or a string that [Long.fromString] reads as
    one, and whose ciphertext is a [Buffer] or a non-empty string, no
    checksum is compared; the call encrypts the supplied ciphertext with
    AES-256-CBC under the key and IV derived from that nonce and returns
    the result, without error. *)
Theorem zero_checksum_encrypts {collab : Collaborators}
    (priv : PrivateKey) (pub : PublicKey) (o : Aes.Nonce) (n : Long)
    (m : Aes.Message) (w : World) :
  Aes.toLongObj o = Ok (Aes.NLong n) ->
  Aes.truthy m = true ->
  Aes.decrypt priv pub o m 0 w
  = (Ok (aes_256_cbc_encrypt (Aes.tag (Aes.material priv pub n))
           (Aes.iv (Aes.material priv pub n)) (Aes.binary_of m)),
     with_events w
       [SharedSecretDerived priv pub;
        CipherCreated (Aes.tag (Aes.material priv pub n))
          (Aes.iv (Aes.material priv pub n))]).
Proof.
  intros H T. rewrite decrypt_of_crypt.
  pose proof (crypt_falsy_checksum priv pub o n m (Some 0) w H eq_refl T) as E.
  cbv zeta in E. now rewrite E.
Qed.

(** Alice's key, bob's public key, the string "12345" as nonce and a
    two-byte buffer. *)
Lemma zero_checksum_encrypts_witness :
  Aes.toLongObj (Aes.NString (lit "12345")) = Ok (Aes.NLong 12345)
  /\ Aes.truthy (Aes.MBuffer [x41; x42]) = true
  /\ Aes.decrypt Toy.alice Toy.bob_pub (Aes.NString (lit "12345"))
       (Aes.MBuffer [x41; x42]) 0 Toy.world0
     = (Ok (aes_256_cbc_encrypt
              (Aes.tag (Aes.material Toy.alice Toy.bob_pub 12345))
              (Aes.iv (Aes.material Toy.alice Toy.bob_pub 12345))
              (Aes.binary_of (Aes.MBuffer [x41; x42]))),
        with_events Toy.world0
          [SharedSecretDerived Toy.alice Toy.bob_pub;
           CipherCreated (Aes.tag (Aes.material Toy.alice Toy.bob_pub 12345))
             (Aes.iv (Aes.material Toy.alice Toy.bob_pub 12345))]).
Proof.
  split; [reflexivity|]. split; [reflexivity|].
  apply (zero_checksum_encrypts (collab := Toy.collaborators));
    reflexivity.
Defined.

(* ------------------------------------------------------------------ *)
(** ** C3: a checksum mismatch must be refused *)

(** The part of C3 the code keeps: a non-zero expected checksum that
    differs from the derived one makes [decrypt] throw "Invalid nonce",
    and the only crypto call made is the shared-secret derivation. *)
Lemma mismatch_refused {collab : Collaborators}
    (priv : PrivateKey) (pub : PublicKey) (o : Aes.Nonce) (n : Long)
    (m : Aes.Message) (expected : Z) (w : World) :
  Aes.toLongObj o = Ok (Aes.NLong n) ->
  expected <> 0 ->
  expected <> Aes.check (Aes.material priv pub n) ->
  Aes.decrypt priv pub o m expected w
  = (Throw InvalidNonce, with_events w [SharedSecretDerived priv pub]).
Proof.
  intros H NZ NE. rewrite decrypt_of_crypt.
  now rewrite (crypt_checksum_mismatch priv pub o n m expected w H NZ NE).
Qed.

(** C3 at the failing input: the expected checksum 0 differs from the
    checksum derived from the nonce (a [Long], or a string read as one),
    and still [decrypt] raises nothing; it returns the AES encryption of
    the ciphertext. *)
Theorem zero_checksum_mismatch_accepted {collab : Collaborators}
    (priv : PrivateKey) (pub : PublicKey) (o : Aes.Nonce) (n : Long)
    (cipher : Buffer) (w : World) :
  Aes.toLongObj o = Ok (Aes.NLong n) ->
  Aes.check (Aes.material priv pub n) <> 0 ->
  Aes.strict_eq (Aes.check (Aes.material priv pub n)) (Some 0) = false
  /\ fst (Aes.decrypt priv pub o (Aes.MBuffer cipher) 0 w)
     = Ok (aes_256_cbc_encrypt (Aes.tag (Aes.material priv pub n))
             (Aes.iv (Aes.material priv pub n)) cipher).
Proof.
  intros H NZ. split.
  - unfold Aes.strict_eq. now apply Z.eqb_neq.
  - rewrite decrypt_of_crypt.
    pose proof (crypt_falsy_checksum priv pub o n (Aes.MBuffer cipher)
                  (Some 0) w H eq_refl eq_refl) as E.
    cbv zeta in E. now rewrite E.
Qed.

(** For alice, bob and the nonce "12345" the derived checksum is not 0. *)
Lemma zero_checksum_mismatch_witness :
  Aes.toLongObj (Aes.NString (lit "12345")) = Ok (Aes.NLong 12345)
  /\ Aes.check (Aes.material Toy.alice Toy.bob_pub 12345) <> 0
  /\ (Aes.strict_eq (Aes.check (Aes.material Toy.alice Toy.bob_pub 12345))
        (Some 0) = false
      /\ fst (Aes.decrypt Toy.alice Toy.bob_pub (Aes.NString (lit "12345"))
                (Aes.MBuffer [x41; x42]) 0 Toy.world0)
         = Ok (aes_256_cbc_encrypt
                 (Aes.tag (Aes.material Toy.alice Toy.bob_pub 12345))
                 (Aes.iv (Aes.material Toy.alice Toy.bob_pub 12345))
                 [x41; x42])).
Proof.
  split; [reflexivity|]. split.
  - vm_compute. discriminate.
  - apply (zero_checksum_mismatch_accepted (collab := Toy.collaborators)).
    + reflexivity.
    + vm_compute. discriminate.
Defined.

(* ------------------------------------------------------------------ *)
(** ** C4: the key schedule *)

Module LittleEndian.

Lemma byte_of_Z_mod (a b : Z) :
  a mod 256 = b mod 256 -> byte_of_Z a = byte_of_Z b.
Proof. intros E. unfold byte_of_Z. now rewrite E. Qed.

(** Masking to a 32-bit half first does not change a byte taken from
    inside that half. *)
Lemma mask_then_byte (v s : Z) :
  0 <= s <= 24 ->
  Z.land (Z.shiftr (Z.land v 0xFFFFFFFF) s) 0xFF
  = Z.land (Z.shiftr v s) 0xFF.
Proof.
  intros Hs.
  change 0xFFFFFFFF with (Z.ones 32). change 0xFF with (Z.ones 8).
  apply Z.bits_inj'; intros i Hi.
  rewrite !Z.land_spec, !Z.shiftr_spec, Z.land_spec by lia.
  rewrite (Z.testbit_ones_nonneg 8 i) by lia.
  destruct (Z.ltb_spec i 8) as [Lt|Ge].
  - rewrite (Z.testbit_ones_nonneg 32) by lia.
    replace (i + s <? 32) with true by (symmetry; apply Z.ltb_lt; lia).
    now rewrite andb_true_r.
  - now rewrite !andb_false_r.
Qed.

Lemma le_bytes_S (n : nat) (v : Z) :
  Design.le_bytes (S n) v
  = byte_of_Z (Z.land (Z.shiftr v 0) 0xFF)
    :: Design.le_bytes n (Z.shiftr v 8).
Proof.
  simpl Design.le_bytes. rewrite Z.shiftr_0_r. f_equal.
  - apply byte_of_Z_mod.
    change 0xFF with (Z.ones 8). now rewrite Z.land_ones by lia.
  - now rewrite Z.shiftr_div_pow2 by lia.
Qed.

Lemma write_half_bytes (w : Z) :
  write_half w
  = [byte_of_Z (Z.land (Z.shiftr w 0) 0xFF);
     byte_of_Z (Z.land (Z.shiftr w 8) 0xFF);
     byte_of_Z (Z.land (Z.shiftr w 16) 0xFF);
     byte_of_Z (Z.land (Z.shiftr w 24) 0xFF)].
Proof. unfold write_half. now rewrite Z.shiftr_0_r. Qed.

(** [writeUint64] on a little-endian buffer writes the eight
    little-endian bytes of the value. *)
Lemma writeUint64_le (v : Z) : writeUint64 v = Design.le_bytes 8 v.
Proof.
  unfold writeUint64, Long_low, Long_high.
  rewrite !write_half_bytes, !mask_then_byte by lia.
  rewrite !le_bytes_S. simpl Design.le_bytes.
  rewrite !Z.shiftr_shiftr by lia. simpl Z.add.
  rewrite !Z.shiftr_0_r. reflexivity.
Qed.

Lemma lor_shiftl_add (hi lo k : Z) :
  0 <= k -> 0 <= lo < 2 ^ k ->
  Z.lor (Z.shiftl hi k) lo = hi * 2 ^ k + lo.
Proof.
  intros Hk Hlo.
  assert (D : Z.land (Z.shiftl hi k) lo = 0).
  { apply Z.bits_inj'; intros i Hi.
    rewrite Z.land_spec, Z.bits_0.
    destruct (Z.ltb_spec i k) as [Lt|Ge].
    - now rewrite Z.shiftl_spec_low.
    - rewrite <- (Z.mod_small lo (2 ^ k)) by lia.
      rewrite Z.mod_pow2_bits_high by lia. apply andb_false_r. }
  rewrite <- (Z.lxor_lor _ _ D), <- (Z.add_nocarry_lxor _ _ D).
  now rewrite Z.shiftl_mul_pow2.
Qed.

(** [readUint32] on a little-endian buffer of four bytes. *)
Lemma readUint32_le (b0 b1 b2 b3 : byte) :
  readUint32 [b0; b1; b2; b3] = Design.le_value [b0; b1; b2; b3].
Proof.
  unfold readUint32, to_uint32. cbn [nth Design.le_value].
  pose proof (Z_of_byte_range b0) as R0.
  pose proof (Z_of_byte_range b1) as R1.
  pose proof (Z_of_byte_range b2) as R2.
  pose proof (Z_of_byte_range b3) as R3.
  generalize dependent (Z_of_byte b0). generalize dependent (Z_of_byte b1).
  generalize dependent (Z_of_byte b2). generalize dependent (Z_of_byte b3).
  intros x3 R3 x2 R2 x1 R1 x0 R0.
  rewrite (Z.shiftl_mul_pow2 x1 8), (Z.shiftl_mul_pow2 x3 24) by lia.
  change (2 ^ 8) with 256. change (2 ^ 24) with 16777216.
  change (2 ^ 32) with 4294967296.
  rewrite (lor_shiftl_add x2 (x1 * 256) 16) by (change (2 ^ 16) with 65536; lia).
  change (2 ^ 16) with 65536.
  replace (x2 * 65536 + x1 * 256) with (Z.shiftl (x2 * 256 + x1) 8)
    by (rewrite Z.shiftl_mul_pow2 by lia; change (2 ^ 8) with 256; lia).
  rewrite (lor_shiftl_add _ x0 8) by (change (2 ^ 8) with 256; lia).
  change (2 ^ 8) with 256.
  rewrite Z.mod_small by lia. lia.
Qed.

Lemma readUint32_le_firstn (buf : Buffer) :
  (4 <= length buf)%nat ->
  readUint32 (firstn 4 buf) = Design.le_value (firstn 4 buf).
Proof.
  destruct buf as [|b0 [|b1 [|b2 [|b3 rest]]]]; simpl length; try lia.
  intros _. apply readUint32_le.
Qed.

Lemma le_value_range (buf : Buffer) :
  0 <= Design.le_value buf < 256 ^ Z.of_nat (length buf).
Proof.
  induction buf as [|b buf IH].
  - simpl. lia.
  - cbn [Design.le_value]. pose proof (Z_of_byte_range b).
    replace (Z.of_nat (length (b :: buf))) with (Z.succ (Z.of_nat (length buf)))
      by (simpl length; lia).
    rewrite Z.pow_succ_r by lia. lia.
Qed.

End LittleEndian.

Section KeySchedule.
Context {collab : Collaborators}.
Hypothesis fixed_width : digests_have_fixed_width.

Ltac open_derive :=
  unfold Aes.derive, Design.EncryptionKeyMaterial; cbv zeta;
  cbn [Aes.tag Aes.iv Aes.check];
  rewrite !to_binary_of_binary, LittleEndian.writeUint64_le;
  unfold slice.

Lemma derive_tag (nonce : Long) (sharedSecret : Buffer) :
  Aes.tag (Aes.derive nonce sharedSecret)
  = firstn 32 (Design.EncryptionKeyMaterial nonce sharedSecret).
Proof. open_derive. reflexivity. Qed.

Lemma derive_iv (nonce : Long) (sharedSecret : Buffer) :
  Aes.iv (Aes.derive nonce sharedSecret)
  = firstn 16 (skipn 32 (Design.EncryptionKeyMaterial nonce sharedSecret)).
Proof. open_derive. reflexivity. Qed.

Lemma derive_check (nonce : Long) (sharedSecret : Buffer) :
  Aes.check (Aes.derive nonce sharedSecret)
  = Design.le_value
      (firstn 4 (sha256 (Design.EncryptionKeyMaterial nonce sharedSecret))).
Proof.
  open_derive.
  change (Z.to_nat (4 - 0)) with 4%nat. change (Z.to_nat 0) with 0%nat.
  cbn [skipn].
  apply LittleEndian.readUint32_le_firstn.
  rewrite (proj2 fixed_width). lia.
Qed.

(** What [crypt] derives is what the design's KeySchedule derives. *)
Lemma derive_refines (nonce : Long) (sharedSecret : Buffer) :
  (Aes.tag (Aes.derive nonce sharedSecret),
   Aes.iv (Aes.derive nonce sharedSecret),
   Aes.check (Aes.derive nonce sharedSecret))
  = Design.KeySchedule_derive nonce sharedSecret.
Proof.
  rewrite derive_tag, derive_iv, derive_check. reflexivity.
Qed.

End KeySchedule.

(** C4: for every nonce and shared secret (and digests of 64 and 32
    bytes) the key material of the code is the one of the design: SHA-512 over the eight little-endian nonce
    bytes followed by the shared secret, bytes [0,32) as AES-256 key,
    bytes [32,48) as IV, and as checksum the first four bytes of SHA-256
    over the whole 64-byte digest read as a little-endian unsigned 32-bit
    integer; and these are the key, IV and checksum [crypt] works with. *)
Theorem key_derivation_as_designed {collab : Collaborators}
    (nonce : Long) (sharedSecret : Buffer) :
  digests_have_fixed_width ->
  let km := Aes.derive nonce sharedSecret in
  let digest := Design.EncryptionKeyMaterial nonce sharedSecret in
  (Aes.tag km, Aes.iv km, Aes.check km)
  = Design.KeySchedule_derive nonce sharedSecret
  /\ length digest = 64%nat
  /\ Aes.tag km = firstn 32 digest /\ length (Aes.tag km) = 32%nat
  /\ Aes.iv km = firstn 16 (skipn 32 digest) /\ length (Aes.iv km) = 16%nat
  /\ Aes.check km = Design.le_value (firstn 4 (sha256 digest))
  /\ 0 <= Aes.check km < 2 ^ 32
  /\ forall priv pub o plain w,
       sharedSecret = get_shared_secret priv pub ->
       Aes.toLongObj o = Ok (Aes.NLong nonce) ->
       Aes.crypt priv pub o (Aes.MBuffer plain) None w
       = (Ok {| Aes.nonce := Aes.NLong nonce;
                Aes.message :=
                  aes_256_cbc_encrypt (Aes.tag km) (Aes.iv km) plain;
                Aes.checksum := Aes.check km |},
          with_events w [SharedSecretDerived priv pub;
                         CipherCreated (Aes.tag km) (Aes.iv km)]).
Proof.
  intros W km digest.
  assert (L : length digest = 64%nat) by apply (proj1 W).
  assert (Rtag : Aes.tag km = firstn 32 digest) by apply derive_tag.
  assert (Riv : Aes.iv km = firstn 16 (skipn 32 digest)) by apply derive_iv.
  assert (Rcheck : Aes.check km = Design.le_value (firstn 4 (sha256 digest)))
    by apply (derive_check W).
  split; [apply (derive_refines W)|].
  split; [exact L|].
  split; [exact Rtag|].
  split; [rewrite Rtag, length_firstn; lia|].
  split; [exact Riv|].
  split; [rewrite Riv, length_firstn, length_skipn; lia|].
  split; [exact Rcheck|].
  split.
  - rewrite Rcheck.
    pose proof (LittleEndian.le_value_range (firstn 4 (sha256 digest))) as B.
    rewrite length_firstn, (proj2 W) in B.
    change (Z.of_nat (Nat.min 4 32)) with 4 in B.
    change (256 ^ 4) with (2 ^ 32) in B. exact B.
  - intros priv pub o plain w -> H.
    pose proof (crypt_falsy_checksum priv pub o nonce (Aes.MBuffer plain)
                  None w H eq_refl eq_refl) as C.
    cbv zeta in C. unfold Aes.material in C. exact C.
Qed.

(** The toy digests have the fixed widths; nonce 12345 and a two-byte
    secret. *)
Lemma key_derivation_witness :
  digests_have_fixed_width (collab := Toy.collaborators)
  /\ (let km := Aes.derive 12345 [x22; x55] in
      let digest := Design.EncryptionKeyMaterial 12345 [x22; x55] in
      (Aes.tag km, Aes.iv km, Aes.check km)
      = Design.KeySchedule_derive 12345 [x22; x55]
      /\ length digest = 64%nat
      /\ Aes.tag km = firstn 32 digest /\ length (Aes.tag km) = 32%nat
      /\ Aes.iv km = firstn 16 (skipn 32 digest)
      /\ length (Aes.iv km) = 16%nat
      /\ Aes.check km = Design.le_value (firstn 4 (sha256 digest))
      /\ 0 <= Aes.check km < 2 ^ 32
      /\ forall priv pub o plain w,
           [x22; x55] = get_shared_secret priv pub ->
           Aes.toLongObj o = Ok (Aes.NLong 12345) ->
           Aes.crypt priv pub o (Aes.MBuffer plain) None w
           = (Ok {| Aes.nonce := Aes.NLong 12345;
                    Aes.message :=
                      aes_256_cbc_encrypt (Aes.tag km) (Aes.iv km) plain;
                    Aes.checksum := Aes.check km |},
              with_events w [SharedSecretDerived priv pub;
                             CipherCreated (Aes.tag km) (Aes.iv km)])).
Proof.
  split.
  - exact ToyLaws.toy_digests.
  - exact (key_derivation_as_designed (collab := Toy.collaborators)
             12345 [x22; x55] ToyLaws.toy_digests).
Defined.

(** On the toy collaborators: the key material of alice and bob under
    nonce 12345. *)
Example key_material_alice_bob :
  get_shared_secret Toy.alice Toy.bob_pub = [x22; x66]
  /\ Design.le_bytes 8 12345 = [x39; x30; x00; x00; x00; x00; x00; x00]
  /\ Aes.check (Aes.material Toy.alice Toy.bob_pub 12345) = 12345.
Proof. repeat split; vm_compute; reflexivity. Qed.

(* ------------------------------------------------------------------ *)
(** ** The nonce generator (C8) and the nonce of [encrypt] (C1) *)

(** A call on a seeded generator: the counter goes up by one, without
    wrapping, and its remainder by 0xFFFF is put under the shifted clock. *)
Lemma uniqueNonce_seeded (w : World) (e : Z) :
  unique_nonce_entropy w = Some e ->
  Aes.uniqueNonce w
  = (Ok (Aes.nonce_value (now w) (e + 1)), with_entropy w (e + 1)).
Proof.
  intros E. unfold Aes.uniqueNonce, bind, get_entropy, ret, Date_now,
    set_entropy.
  rewrite E. reflexivity.
Qed.

(** The first call seeds the counter from byte 0 of one [randomBytes(2)]
    and byte 1 of the next. *)
Lemma uniqueNonce_first_call (w : World) :
  unique_nonce_entropy w = None ->
  let seed := Z.lor (Z.shiftl (Z_of_byte (random w (drawn w))) 8)
                (Z_of_byte (random w (drawn w + 3)%nat)) in
  Aes.uniqueNonce w
  = (Ok (Aes.nonce_value (now w) (seed + 1)),
     with_entropy (with_drawn (with_drawn w 2) 2) (seed + 1)).
Proof.
  intros E seed. unfold Aes.uniqueNonce, bind, get_entropy, ret, Date_now,
    set_entropy, randomBytes.
  rewrite E. cbn [map seq nth drawn with_drawn random now].
  replace (drawn w + 0)%nat with (drawn w) by lia.
  replace (drawn w + 2 + 1)%nat with (drawn w + 3)%nat by lia.
  reflexivity.
Qed.

(** C8 at the failing input: with the counter at 65534 the design's
    generator yields entropy 65535, the code yields entropy 0: it reduces
    modulo 0xFFFF = 65535, and the stored counter itself never wraps. *)
Theorem entropy_reduced_modulo_65535 :
  Aes.uniqueNonce Toy.world_65534
  = (Ok (1700000000000 * 65536 + 0), with_entropy Toy.world_65534 65535)
  /\ Design.NonceGenerator_next 65534 1700000000000
     = (1700000000000 * 65536 + 65535, 65535).
Proof. split; reflexivity. Qed.

(** Whatever nonce the caller supplies, [encrypt] draws one from the
    generator and uses that. *)
Lemma encrypt_uses_generator {collab : Collaborators}
    (priv : PrivateKey) (pub : PublicKey) (text : jsstring)
    (supplied : option Z) (w : World) (e : Z) :
  unique_nonce_entropy w = Some e ->
  let fresh := Aes.nonce_value (now w) (e + 1) in
  exists r,
    Aes.encrypt priv pub text supplied w
    = (Ok r, with_events (with_entropy w (e + 1))
               [SharedSecretDerived priv pub;
                CipherCreated (Aes.tag (Aes.material priv pub fresh))
                  (Aes.iv (Aes.material priv pub fresh))])
    /\ Aes.nonce r = Aes.NLong (Long_wrap fresh)
    /\ Aes.message r
       = aes_256_cbc_encrypt (Aes.tag (Aes.material priv pub fresh))
           (Aes.iv (Aes.material priv pub fresh))
           (Aes.framed text)
    /\ Aes.checksum r = Aes.check (Aes.material priv pub fresh).
Proof.
  intros E fresh. unfold Aes.encrypt.
  rewrite (bind_ok _ _ _ _ _ (uniqueNonce_seeded w e E)). fold fresh.
  pose proof (crypt_falsy_checksum priv pub
                (Aes.NString (Long_toString fresh)) (Long_wrap fresh)
                (Aes.MBuffer (Aes.framed text))
                None (with_entropy w (e + 1)) (toLongObj_printed fresh)
                eq_refl eq_refl) as C.
  cbv zeta in C. rewrite !material_wrap in C. rewrite C.
  eexists. repeat split; reflexivity.
Qed.

(** C1 at the failing input: [encrypt] is handed the nonce 12345 and
    returns an envelope with the generator's nonce instead, which is
    12345 neither as a [Long] nor as a number; the entropy counter has
    moved, so the generator was consulted. *)
Theorem supplied_nonce_12345_not_used {collab : Collaborators}
    (priv : PrivateKey) (pub : PublicKey) :
  exists r w',
    Aes.encrypt priv pub (lit "hello") (Some 12345) Toy.world0 = (Ok r, w')
    /\ Aes.nonce r = Aes.NLong 111411200000000008
    /\ Aes.nonce r <> Aes.NLong 12345
    /\ Aes.nonce r <> Aes.NNumber 12345
    /\ unique_nonce_entropy Toy.world0 = Some 7
    /\ unique_nonce_entropy w' = Some 8.
Proof.
  destruct (encrypt_uses_generator priv pub (lit "hello") (Some 12345)
              Toy.world0 7 eq_refl) as [r [E [N _]]].
  exists r. eexists. split; [exact E|].
  assert (V : Aes.nonce r = Aes.NLong 111411200000000008)
    by (rewrite N; reflexivity).
  split; [exact V|].
  split; [rewrite V; discriminate|].
  split; [rewrite V; discriminate|].
  split; reflexivity.
Qed.

(* ------------------------------------------------------------------ *)
(** ** C5: a memo without the marker passes through *)

(** C5: a string that does not start with ['#'] is returned unchanged by
    [encode] and by [decode], whatever the keys and the nonce; nothing is
    thrown and the state is untouched. *)
Theorem marker_pass_through {collab : Collaborators}
    (S : jsstring) (private_key decoder_key : Memo.KeyArg PrivateKey)
    (public_key : Memo.KeyArg PublicKey) (testNonce : option Z) (w : World) :
  startsWith_hash S = false ->
  Memo.encode private_key public_key S testNonce w = (Ok S, w)
  /\ Memo.decode decoder_key S w = (Ok S, w).
Proof.
  intros N. unfold Memo.encode, Memo.decode. rewrite N. split; reflexivity.
Qed.

(** "hello" carries no marker. *)
Lemma marker_pass_through_witness :
  startsWith_hash (lit "hello") = false
  /\ (Memo.encode (Memo.KeyObject Toy.alice) (Memo.KeyObject Toy.bob_pub)
        (lit "hello") (Some 12345) Toy.world0 = (Ok (lit "hello"), Toy.world0)
      /\ Memo.decode (Memo.KeyString (lit "not a key")) (lit "hello")
           Toy.world0 = (Ok (lit "hello"), Toy.world0)).
Proof.
  split.
  - reflexivity.
  - apply (marker_pass_through (collab := Toy.collaborators)). reflexivity.
Defined.

(* ------------------------------------------------------------------ *)
(** ** [decode] on a marked memo (C6, C7) *)

Module Strings.

Lemma eqb_refl (s : jsstring) : JsString.eqb s s = true.
Proof.
  induction s as [|c s IH]; simpl; [reflexivity|].
  now rewrite Z.eqb_refl, IH.
Qed.

Lemma eqb_eq (a b : jsstring) : JsString.eqb a b = true <-> a = b.
Proof.
  split; [|intros ->; apply eqb_refl].
  revert b. induction a as [|x a IH]; intros [|y b]; simpl; try discriminate.
  - reflexivity.
  - intros E. apply andb_true_iff in E as [E1 E2].
    apply Z.eqb_eq in E1. apply IH in E2. now subst.
Qed.

End Strings.

Section Decode.
Context {collab : Collaborators}.

Lemma new_PublicKey_key (p : PublicKey) : Memo.new_PublicKey (key p) = p.
Proof. now destruct p. Qed.

(** The comparison of key strings decides equality of the keys. *)
Lemma counterparty_own (priv : PrivateKey) (env : Wire.Envelope) :
  createPublic priv = Wire.from env ->
  Memo.counterparty priv env = Wire.to env.
Proof.
  intros E. unfold Memo.counterparty.
  rewrite !new_PublicKey_key, E, Strings.eqb_refl. reflexivity.
Qed.

Lemma counterparty_other (priv : PrivateKey) (env : Wire.Envelope) :
  key_strings_identify_keys ->
  createPublic priv <> Wire.from env ->
  Memo.counterparty priv env = Wire.from env.
Proof.
  intros Inj NE. unfold Memo.counterparty. rewrite !new_PublicKey_key.
  destruct (JsString.eqb _ _) eqn:E; [|reflexivity].
  apply Strings.eqb_eq, Inj in E. contradiction.
Qed.

(** [decode] on a marked memo that decodes and deserializes: what is left
    is the decryption against the counterparty and the unframing. *)
Lemma decode_marked (k : Memo.KeyArg PrivateKey) (priv : PrivateKey)
    (body : jsstring) (bytes : Buffer) (env : Wire.Envelope) (w : World) :
  Memo.toPrivateObj k w = (Ok (Some priv), w) ->
  bs58_decode body = Some bytes ->
  EncryptedMemoD bytes = Some env ->
  Memo.decode k (hash :: body) w
  = match Aes.decrypt priv (Memo.counterparty priv env)
            (Aes.NLong (Wire.nonce env))
            (Aes.MBuffer (Wire.encrypted env)) (Wire.check env) w with
    | (Ok plain, w') => (Ok (Memo.unframe plain), w')
    | (Throw e, w') => (Throw e, w')
    end.
Proof.
  intros K B D. unfold Memo.decode.
  change (startsWith_hash (hash :: body)) with true.
  cbn [negb substring1 tl].
  rewrite (bind_ok _ _ _ _ _ K), B.
  unfold bind at 1. cbn [ret]. rewrite D.
  unfold bind at 1. cbn [ret Memo.receiver].
  unfold bind at 1. cbn [ret].
  unfold bind. destruct (Aes.decrypt _ _ _ _ _ _) as [[plain|e] w'];
    reflexivity.
Qed.

(** The crypto calls of one [decrypt] on a buffer, with a nonce read as
    a [Long]: the shared-secret derivation for exactly the given key
    pair, then at most the creation of one cipher or decipher. *)
Lemma decrypt_events (priv : PrivateKey) (pub : PublicKey) (o : Aes.Nonce)
    (n : Long) (cipher : Buffer) (expected : Z) (w : World) :
  Aes.toLongObj o = Ok (Aes.NLong n) ->
  exists r evs,
    Aes.decrypt priv pub o (Aes.MBuffer cipher) expected w
    = (r, with_events w (SharedSecretDerived priv pub :: evs))
    /\ forall p q, ~ In (SharedSecretDerived p q) evs.
Proof.
  intros H. rewrite decrypt_of_crypt.
  destruct (Z.eq_dec expected 0) as [->|NZ].
  - pose proof (crypt_falsy_checksum priv pub o n (Aes.MBuffer cipher)
                  (Some 0) w H eq_refl eq_refl) as E.
    cbv zeta in E. rewrite E.
    eexists. eexists. split; [reflexivity|].
    intros p q [F|[]]. discriminate.
  - destruct (Z.eq_dec expected (Aes.check (Aes.material priv pub n)))
      as [EQ|NE].
    + pose proof (crypt_checksum_match priv pub o n (Aes.MBuffer cipher)
                    expected w H NZ EQ eq_refl) as E.
      cbv zeta in E. rewrite E.
      destruct (aes_256_cbc_decrypt _ _ _);
        (eexists; eexists; split; [reflexivity|];
         intros p q [F|[]]; discriminate).
    + rewrite (crypt_checksum_mismatch priv pub o n _ expected w H NZ NE).
      eexists. exists []. split; [reflexivity|]. intros p q [].
Qed.

End Decode.

(** C6: on a marked memo, [decode] compares the caller's own public key
    with [Envelope.from]; when they are equal the counterparty is
    [Envelope.to], otherwise it is [Envelope.from]; the decryption is made
    against that key, and the one shared secret derived during the call is
    the one of the caller's private key and that key. *)
Theorem counterparty_resolution {collab : Collaborators}
    (k : Memo.KeyArg PrivateKey) (priv : PrivateKey) (body : jsstring)
    (bytes : Buffer) (env : Wire.Envelope) (w : World) :
  key_strings_identify_keys ->
  Memo.toPrivateObj k w = (Ok (Some priv), w) ->
  bs58_decode body = Some bytes ->
  EncryptedMemoD bytes = Some env ->
  (createPublic priv = Wire.from env ->
   Memo.counterparty priv env = Wire.to env)
  /\ (createPublic priv <> Wire.from env ->
      Memo.counterparty priv env = Wire.from env)
  /\ Memo.decode k (hash :: body) w
     = match Aes.decrypt priv (Memo.counterparty priv env)
               (Aes.NLong (Wire.nonce env))
               (Aes.MBuffer (Wire.encrypted env)) (Wire.check env) w with
       | (Ok plain, w') => (Ok (Memo.unframe plain), w')
       | (Throw e, w') => (Throw e, w')
       end
  /\ exists evs,
       trace (snd (Memo.decode k (hash :: body) w))
       = trace w
         ++ SharedSecretDerived priv (Memo.counterparty priv env) :: evs
       /\ forall p q, ~ In (SharedSecretDerived p q) evs.
Proof.
  intros Inj K B D.
  split; [apply counterparty_own|].
  split; [apply counterparty_other; exact Inj|].
  pose proof (decode_marked k priv body bytes env w K B D) as E.
  split; [exact E|].
  rewrite E.
  destruct (decrypt_events priv (Memo.counterparty priv env)
              (Aes.NLong (Wire.nonce env)) (Wire.nonce env)
              (Wire.encrypted env) (Wire.check env) w eq_refl)
    as [r [evs [R N]]].
  exists evs. rewrite R. split; [|exact N].
  destruct r; reflexivity.
Qed.


(** Bob decodes the framed envelope alice sent him. *)
Lemma counterparty_resolution_witness :
  key_strings_identify_keys (collab := Toy.collaborators)
  /\ Memo.toPrivateObj (Memo.KeyObject Toy.bob) Toy.world0
     = (Ok (Some Toy.bob), Toy.world0)
  /\ bs58_decode (of_binary (EncryptedMemo Toy.framed_envelope))
     = Some (EncryptedMemo Toy.framed_envelope)
  /\ EncryptedMemoD (EncryptedMemo Toy.framed_envelope)
     = Some Toy.framed_envelope
  /\ ((createPublic Toy.bob = Wire.from Toy.framed_envelope ->
       Memo.counterparty Toy.bob Toy.framed_envelope
       = Wire.to Toy.framed_envelope)
      /\ (createPublic Toy.bob <> Wire.from Toy.framed_envelope ->
          Memo.counterparty Toy.bob Toy.framed_envelope
          = Wire.from Toy.framed_envelope)
      /\ Memo.decode (Memo.KeyObject Toy.bob)
           (hash :: of_binary (EncryptedMemo Toy.framed_envelope)) Toy.world0
         = match Aes.decrypt Toy.bob
                   (Memo.counterparty Toy.bob Toy.framed_envelope)
                   (Aes.NLong (Wire.nonce Toy.framed_envelope))
                   (Aes.MBuffer (Wire.encrypted Toy.framed_envelope))
                   (Wire.check Toy.framed_envelope) Toy.world0 with
           | (Ok plain, w') => (Ok (Memo.unframe plain), w')
           | (Throw e, w') => (Throw e, w')
           end
      /\ exists evs,
           trace (snd (Memo.decode (Memo.KeyObject Toy.bob)
                         (hash
                          :: of_binary (EncryptedMemo Toy.framed_envelope))
                         Toy.world0))
           = trace Toy.world0
             ++ SharedSecretDerived Toy.bob
                  (Memo.counterparty Toy.bob Toy.framed_envelope) :: evs
           /\ forall p q, ~ In (SharedSecretDerived p q) evs).
Proof.
  assert (K : Memo.toPrivateObj (Memo.KeyObject Toy.bob) Toy.world0
              = (Ok (Some Toy.bob), Toy.world0)) by reflexivity.
  assert (B : bs58_decode (of_binary (EncryptedMemo Toy.framed_envelope))
              = Some (EncryptedMemo Toy.framed_envelope))
    by (vm_compute; reflexivity).
  assert (D : EncryptedMemoD (EncryptedMemo Toy.framed_envelope)
              = Some Toy.framed_envelope) by (vm_compute; reflexivity).
  split; [exact ToyLaws.toy_key_strings|].
  split; [exact K|]. split; [exact B|]. split; [exact D|].
  exact (counterparty_resolution (collab := Toy.collaborators)
           (Memo.KeyObject Toy.bob) Toy.bob _ _ _ Toy.world0
           ToyLaws.toy_key_strings K B D).
Defined.

(** On the toy collaborators: bob reads alice's framed memo. *)
Example bob_decodes_framed_memo :
  Memo.counterparty Toy.bob Toy.framed_envelope = Toy.alice_pub
  /\ Memo.counterparty Toy.alice Toy.framed_envelope = Toy.bob_pub
  /\ Memo.decode (Memo.KeyObject Toy.bob)
       (hash :: of_binary (EncryptedMemo Toy.framed_envelope)) Toy.world0
     = (Ok (lit "#hello"), Toy.world_after_decrypt).
Proof. repeat split; vm_compute; reflexivity. Qed.


(** On the toy collaborators: the unframed "hi" comes back as "#hi". *)
Example bob_decodes_unframed_memo :
  fst (Memo.decode (Memo.KeyObject Toy.bob)
         (hash :: of_binary (EncryptedMemo Toy.raw_envelope)) Toy.world0)
  = Ok (lit "#hi").
Proof. vm_compute. reflexivity. Qed.

(* ------------------------------------------------------------------ *)
(** ** C2: [decode] after [encode] *)

Section RoundTrip.
Context {collab : Collaborators}.

Lemma material_same_secret (p p' : PrivateKey) (q q' : PublicKey) (n : Long) :
  get_shared_secret p q = get_shared_secret p' q' ->
  Aes.material p q n = Aes.material p' q' n.
Proof. intros E. unfold Aes.material. now rewrite E. Qed.

(** The envelope [encode] builds for a marked memo. *)
Lemma encode_marked_envelope (a : PrivateKey) (B : PublicKey)
    (text : jsstring) (supplied : option Z) (w : World) (e : Z) :
  unique_nonce_entropy w = Some e ->
  let km := Aes.material a B (Aes.nonce_value (now w) (e + 1)) in
  Memo.encode_envelope (Memo.KeyObject a) (Memo.KeyObject B) (hash :: text)
    supplied w
  = (Ok {| Wire.from := createPublic a;
           Wire.to := B;
           Wire.nonce := Long_wrap (Aes.nonce_value (now w) (e + 1));
           Wire.check := Aes.check km;
           Wire.encrypted :=
             aes_256_cbc_encrypt (Aes.tag km) (Aes.iv km)
               (Aes.framed text) |},
     with_events (with_entropy w (e + 1))
       [SharedSecretDerived a B; CipherCreated (Aes.tag km) (Aes.iv km)]).
Proof.
  intros E km.
  destruct (encrypt_uses_generator a B text supplied w e E)
    as [r [R [N [Msg Ck]]]].
  unfold Memo.encode_envelope. cbn [substring1 tl Memo.toPrivateObj
    Memo.toPublicObj].
  unfold bind at 1. cbn [ret]. unfold bind at 1. cbn [ret].
  rewrite (bind_ok _ _ _ _ _ R).
  unfold bind, Memo.receiver, ret, lift.
  rewrite N, Msg, Ck. reflexivity.
Qed.

(** What a reader recovers from the memo [encode] produced, provided the
    cipher, Base58 and the serializer give back what they were given and
    the reader derives the sender's shared secret: the unframing of
    [Aes.framed], which is the text only when the UTF-8 re-encoding
    left the frame alone. *)
Lemma decode_after_encode (a reader : PrivateKey) (B : PublicKey)
    (text : jsstring) (supplied : option Z) (w : World) (e : Z) :
  unique_nonce_entropy w = Some e ->
  (forall tag iv plain,
     aes_256_cbc_decrypt tag iv (aes_256_cbc_encrypt tag iv plain)
     = Some plain) ->
  (forall buf, bs58_decode (bs58_encode buf) = Some buf) ->
  (forall env w',
     Memo.encode_envelope (Memo.KeyObject a) (Memo.KeyObject B)
       (hash :: text) supplied w = (Ok env, w') ->
     EncryptedMemoD (EncryptedMemo env) = Some env
     /\ get_shared_secret reader (Memo.counterparty reader env)
        = get_shared_secret a B) ->
  Aes.check (Aes.material a B (Aes.nonce_value (now w) (e + 1))) <> 0 ->
  exists memo w',
    Memo.encode (Memo.KeyObject a) (Memo.KeyObject B) (hash :: text)
      supplied w = (Ok memo, w')
    /\ fst (Memo.decode (Memo.KeyObject reader) memo w')
       = Ok (Memo.unframe (Aes.framed text)).
Proof.
  intros E Haes H58 Hwire NZ.
  pose proof (encode_marked_envelope a B text supplied w e E) as Env.
  cbv zeta in Env.
  destruct (Hwire _ _ Env) as [Hser Hsecret].
  set (km := Aes.material a B (Aes.nonce_value (now w) (e + 1))) in *.
  set (env := {| Wire.from := createPublic a |}) in *.
  set (w1 := with_events _ _) in *.
  exists (hash :: bs58_encode (EncryptedMemo env)), w1.
  split.
  - unfold Memo.encode.
    change (startsWith_hash (hash :: text)) with true. cbn [negb].
    now rewrite (bind_ok _ _ _ _ _ Env).
  - rewrite (decode_marked (Memo.KeyObject reader) reader _ _ env w1
               eq_refl (H58 _) Hser).
    rewrite decrypt_of_crypt.
    assert (M : Aes.material reader (Memo.counterparty reader env)
                  (Wire.nonce env) = km).
    { subst env. cbn [Wire.nonce]. rewrite material_wrap.
      now apply material_same_secret. }
    pose proof (crypt_checksum_match reader (Memo.counterparty reader env)
                  (Aes.NLong (Wire.nonce env)) (Wire.nonce env)
                  (Aes.MBuffer (Wire.encrypted env))
                  (Wire.check env) w1 eq_refl) as C.
    cbv zeta in C. rewrite M in C.
    assert (Ck : Wire.check env = Aes.check km) by reflexivity.
    rewrite C; [|rewrite Ck; exact NZ|exact Ck|reflexivity].
    cbn [Aes.binary_of]. subst env. cbn [Wire.encrypted].
    rewrite Haes. reflexivity.
Qed.

End RoundTrip.

(** With an ASCII text the frame survives: sender and reader get it back. *)
Example unframe_hello :
  Memo.unframe (Aes.framed (lit "hello")) = lit "#hello".
Proof. reflexivity. Qed.

(** With a character above U+007F the frame is re-encoded: the length
    prefix 2 now covers the two bytes C3 83 of the four that follow. *)
Example framed_e_acute :
  writeVString [233] = [x02; xc3; xa9]
  /\ Aes.framed [233] = [x02; xc3; x83; xc2; xa9]
  /\ Memo.unframe (Aes.framed [233]) = [35; 195].
Proof. repeat split; reflexivity. Qed.

(** C2 at the failing input: with a cipher, a Base58 codec and a
    serializer that give back what they were given, a symmetric shared
    secret and distinct key pairs, the memo "#é" (U+00E9) encoded by A for
    B decodes, for A and for B alike, to "#Ã" (U+00C3): neither recovers
    the plaintext. *)
Theorem e_acute_memo_not_recovered {collab : Collaborators}
    (a b : PrivateKey) (w : World) (e : Z) :
  key_strings_identify_keys ->
  unique_nonce_entropy w = Some e ->
  (forall tag iv plain,
     aes_256_cbc_decrypt tag iv (aes_256_cbc_encrypt tag iv plain)
     = Some plain) ->
  (forall buf, bs58_decode (bs58_encode buf) = Some buf) ->
  (forall env w',
     Memo.encode_envelope (Memo.KeyObject a) (Memo.KeyObject (createPublic b))
       [35; 233] None w = (Ok env, w') ->
     EncryptedMemoD (EncryptedMemo env) = Some env) ->
  get_shared_secret b (createPublic a) = get_shared_secret a (createPublic b) ->
  createPublic a <> createPublic b ->
  Aes.check (Aes.material a (createPublic b) (Aes.nonce_value (now w) (e + 1))) <> 0 ->
  exists memo w',
    Memo.encode (Memo.KeyObject a) (Memo.KeyObject (createPublic b))
      [35; 233] None w = (Ok memo, w')
    /\ fst (Memo.decode (Memo.KeyObject a) memo w') = Ok [35; 195]
    /\ fst (Memo.decode (Memo.KeyObject b) memo w') = Ok [35; 195]
    /\ [35; 195] <> [35; 233].
Proof.
  intros Inj E Haes H58 Hser Hsym Hdistinct NZ.
  pose proof (encode_marked_envelope a (createPublic b) [233] None w e E)
    as Env. cbv zeta in Env.
  destruct (decode_after_encode a a (createPublic b) [233] None w e E Haes H58)
    as [memo [w' [Enc DecA]]]; [|exact NZ|].
  { intros env w1 Ee. split; [now apply (Hser env w1)|].
    change (hash :: [233]) with [35; 233] in Env.
    change (hash :: [233]) with [35; 233] in Ee.
    rewrite Env in Ee. apply run_inj in Ee as [<- _].
    now rewrite counterparty_own. }
  destruct (decode_after_encode a b (createPublic b) [233] None w e E Haes H58)
    as [memo' [w'' [Enc' DecB]]]; [|exact NZ|].
  { intros env w1 Ee. split; [now apply (Hser env w1)|].
    change (hash :: [233]) with [35; 233] in Env.
    change (hash :: [233]) with [35; 233] in Ee.
    rewrite Env in Ee. apply run_inj in Ee as [<- _].
    rewrite counterparty_other; [exact Hsym|exact Inj|].
    cbn [Wire.from]. congruence. }
  rewrite Enc in Enc'. apply run_inj in Enc' as [<- <-].
  exists memo, w'. split; [exact Enc|].
  split; [exact DecA|]. split; [exact DecB|]. discriminate.
Qed.

(** The assumptions hold together: the toy collaborators, alice and bob. *)
Lemma e_acute_memo_not_recovered_witness :
  key_strings_identify_keys (collab := Toy.collaborators)
  /\ unique_nonce_entropy Toy.world0 = Some 7
  /\ (forall tag iv plain,
        aes_256_cbc_decrypt tag iv (aes_256_cbc_encrypt tag iv plain)
        = Some plain)
  /\ (forall buf, bs58_decode (bs58_encode buf) = Some buf)
  /\ (forall env w',
        Memo.encode_envelope (Memo.KeyObject Toy.alice)
          (Memo.KeyObject (createPublic Toy.bob)) [35; 233] None Toy.world0
        = (Ok env, w') ->
        EncryptedMemoD (EncryptedMemo env) = Some env)
  /\ get_shared_secret Toy.bob (createPublic Toy.alice)
     = get_shared_secret Toy.alice (createPublic Toy.bob)
  /\ createPublic Toy.alice <> createPublic Toy.bob
  /\ Aes.check (Aes.material Toy.alice (createPublic Toy.bob)
                  (Aes.nonce_value (now Toy.world0) (7 + 1))) <> 0
  /\ exists memo w',
       Memo.encode (Memo.KeyObject Toy.alice)
         (Memo.KeyObject (createPublic Toy.bob)) [35; 233] None Toy.world0
       = (Ok memo, w')
       /\ fst (Memo.decode (Memo.KeyObject Toy.alice) memo w') = Ok [35; 195]
       /\ fst (Memo.decode (Memo.KeyObject Toy.bob) memo w') = Ok [35; 195]
       /\ [35; 195] <> [35; 233].
Proof.
  assert (E : unique_nonce_entropy Toy.world0 = Some 7) by reflexivity.
  assert (Haes : forall tag iv plain,
             aes_256_cbc_decrypt tag iv (aes_256_cbc_encrypt tag iv plain)
             = Some plain) by (intros; reflexivity).
  assert (H58 : forall buf, bs58_decode (bs58_encode buf) = Some buf)
    by exact ToyLaws.toy_text_roundtrip.
  assert (Hser : forall env w',
             Memo.encode_envelope (Memo.KeyObject Toy.alice)
               (Memo.KeyObject (createPublic Toy.bob)) [35; 233] None
               Toy.world0 = (Ok env, w') ->
             EncryptedMemoD (EncryptedMemo env) = Some env).
  { intros env w' Ee. vm_compute in Ee. apply run_inj in Ee as [<- _].
    vm_compute. reflexivity. }
  assert (Hsym : get_shared_secret Toy.bob (createPublic Toy.alice)
                 = get_shared_secret Toy.alice (createPublic Toy.bob))
    by (vm_compute; reflexivity).
  assert (Hdistinct : createPublic Toy.alice <> createPublic Toy.bob)
    by (vm_compute; discriminate).
  assert (NZ : Aes.check (Aes.material Toy.alice (createPublic Toy.bob)
                            (Aes.nonce_value (now Toy.world0) (7 + 1))) <> 0)
    by (vm_compute; discriminate).
  split; [exact ToyLaws.toy_key_strings|].
  split; [exact E|]. split; [exact Haes|]. split; [exact H58|].
  split; [exact Hser|]. split; [exact Hsym|]. split; [exact Hdistinct|].
  split; [exact NZ|].
  exact (e_acute_memo_not_recovered (collab := Toy.collaborators)
           Toy.alice Toy.bob Toy.world0 7 ToyLaws.toy_key_strings
           E Haes H58 Hser Hsym Hdistinct NZ).
Defined.

(* ------------------------------------------------------------------ *)
(** ** Where the round trip does hold: short ASCII memos *)

Module Ascii7.

Lemma Z_of_byte_of_Z (c : Z) : 0 <= c < 256 -> Z_of_byte (byte_of_Z c) = c.
Proof.
  intros R. unfold Z_of_byte, byte_of_Z. rewrite Z.mod_small by lia.
  destruct (Byte.of_N (Z.to_N c)) as [b|] eqn:E.
  - apply Byte.to_of_N in E. rewrite E. lia.
  - apply Byte.of_N_None_iff in E. lia.
Qed.

Lemma utf8_encode_ascii (s : jsstring) :
  Forall (fun c => 0 <= c < 128) s -> Utf8.encode s = map byte_of_Z s.
Proof.
  induction 1 as [|c s R _ IH]; [reflexivity|].
  cbn [Utf8.encode map].
  assert (L : Utf8.is_lead c = false).
  { unfold Utf8.is_lead. replace (0xD800 <=? c) with false; [reflexivity|].
    symmetry. apply Z.leb_gt. lia. }
  assert (T : Utf8.is_trail c = false).
  { unfold Utf8.is_trail. replace (0xDC00 <=? c) with false; [reflexivity|].
    symmetry. apply Z.leb_gt. lia. }
  rewrite L, T. unfold Utf8.encode_code_point.
  replace (c <? 0x80) with true by (symmetry; apply Z.ltb_lt; lia).
  cbn [app]. now rewrite IH.
Qed.

Lemma of_binary_ascii (s : jsstring) :
  Forall (fun c => 0 <= c < 128) s -> of_binary (map byte_of_Z s) = s.
Proof.
  induction 1 as [|c s R _ IH]; [reflexivity|].
  unfold of_binary in *. cbn [map]. rewrite IH.
  now rewrite Z_of_byte_of_Z by lia.
Qed.

Lemma utf8_decode_ascii (s : jsstring) :
  Forall (fun c => 0 <= c < 128) s -> Utf8.decode (map byte_of_Z s) = s.
Proof.
  unfold Utf8.decode.
  induction 1 as [|c s R _ IH]; [reflexivity|].
  cbn [map Utf8.decode_from Utf8.step]. rewrite Z_of_byte_of_Z by lia.
  unfold Utf8.start.
  replace (c <=? 0x7F) with true by (symmetry; apply Z.leb_le; lia).
  cbn [app flat_map]. rewrite IH. unfold Utf8.utf16_of_code_point.
  replace (c <? 0x10000) with true by (symmetry; apply Z.ltb_lt; lia).
  reflexivity.
Qed.

Lemma writeVarint32_small (n : Z) :
  0 <= n < 128 -> writeVarint32 n = [byte_of_Z n].
Proof.
  intros R. unfold writeVarint32, to_uint32.
  rewrite Z.mod_small by lia. cbn [writeVarint32_loop].
  now replace (0x80 <=? n) with false by (symmetry; apply Z.leb_gt; lia).
Qed.

(** The frame of a short ASCII text survives the UTF-8 re-encoding. *)
Lemma framed_short_ascii (text : jsstring) :
  short_ascii text ->
  Aes.framed text
  = byte_of_Z (Z.of_nat (length text)) :: map byte_of_Z text.
Proof.
  intros [A L]. unfold Aes.framed, writeVString.
  rewrite (utf8_encode_ascii text A), length_map.
  rewrite writeVarint32_small by lia. cbn [app].
  change (byte_of_Z (Z.of_nat (length text)) :: map byte_of_Z text)
    with (map byte_of_Z (Z.of_nat (length text) :: text)).
  assert (A' : Forall (fun c => 0 <= c < 128) (Z.of_nat (length text) :: text))
    by (constructor; [lia|exact A]).
  rewrite (of_binary_ascii _ A'). now apply utf8_encode_ascii.
Qed.

Lemma land_0x7f_small (n : Z) : 0 <= n < 128 -> Z.land n 0x7f = n.
Proof.
  intros R. change 0x7f with (Z.ones 7).
  rewrite Z.land_ones by lia. apply Z.mod_small. lia.
Qed.

Lemma land_0x80_small (n : Z) : 0 <= n < 128 -> Z.land n 0x80 = 0.
Proof.
  intros R. apply Z.bits_inj'; intros i Hi.
  rewrite Z.land_spec, Z.bits_0.
  change 0x80 with (2 ^ 7). rewrite Z.pow2_bits_eqb by lia.
  destruct (Z.eqb_spec 7 i) as [<-|_]; [|apply andb_false_r].
  rewrite <- (Z.mod_small n (2 ^ 7)) by lia.
  rewrite Z.mod_pow2_bits_high by lia. reflexivity.
Qed.

Lemma readVString_short_ascii (text : jsstring) :
  short_ascii text ->
  readVString (byte_of_Z (Z.of_nat (length text)) :: map byte_of_Z text)
  = Some text.
Proof.
  intros [A L]. unfold readVString.
  set (n := Z.of_nat (length text)).
  assert (R : 0 <= n < 128) by (subst n; lia).
  assert (I : to_int32 n = n)
    by (unfold to_int32; rewrite Z.mod_small; lia).
  change (length (byte_of_Z n :: map byte_of_Z text) <? 1)%nat with false.
  cbv iota. cbn [readVarint32_loop].
  rewrite Z_of_byte_of_Z by lia.
  rewrite land_0x80_small, land_0x7f_small by lia.
  change (0 =? 0) with true. change (0 <? 5)%nat with true. cbv iota.
  change (7 * Z.of_nat 0) with 0.
  rewrite Z.shiftl_0_r, I, Z.lor_0_l, I.
  change (Z.of_nat 1) with 1.
  replace (Z.of_nat (length (byte_of_Z n :: map byte_of_Z text))) with (1 + n)
    by (cbn [length]; rewrite length_map; subst n; lia).
  replace (1 + n <? 1) with false by (symmetry; apply Z.ltb_ge; lia).
  rewrite Z.ltb_irrefl.
  unfold slice.
  replace (Z.to_nat (1 + n - 1)) with (length (map byte_of_Z text))
    by (rewrite length_map; subst n; lia).
  change (Z.to_nat 1) with 1%nat. cbn [skipn].
  rewrite firstn_all. now rewrite utf8_decode_ascii.
Qed.

(** [decode]'s unframing gives a short ASCII text back. *)
Lemma unframe_framed_short_ascii (text : jsstring) :
  short_ascii text -> Memo.unframe (Aes.framed text) = hash :: text.
Proof.
  intros S. unfold Memo.unframe.
  rewrite to_binary_of_binary, (framed_short_ascii text S).
  now rewrite (readVString_short_ascii text S).
Qed.

End Ascii7.

(** For a short ASCII text, and a derived checksum other than 0, the
    reader recovers the memo that was encoded. *)
Lemma short_ascii_round_trip {collab : Collaborators}
    (a reader : PrivateKey) (B : PublicKey) (text : jsstring)
    (supplied : option Z) (w : World) (e : Z) :
  short_ascii text ->
  unique_nonce_entropy w = Some e ->
  (forall tag iv plain,
     aes_256_cbc_decrypt tag iv (aes_256_cbc_encrypt tag iv plain)
     = Some plain) ->
  (forall buf, bs58_decode (bs58_encode buf) = Some buf) ->
  (forall env w',
     Memo.encode_envelope (Memo.KeyObject a) (Memo.KeyObject B)
       (hash :: text) supplied w = (Ok env, w') ->
     EncryptedMemoD (EncryptedMemo env) = Some env
     /\ get_shared_secret reader (Memo.counterparty reader env)
        = get_shared_secret a B) ->
  Aes.check (Aes.material a B (Aes.nonce_value (now w) (e + 1))) <> 0 ->
  exists memo w',
    Memo.encode (Memo.KeyObject a) (Memo.KeyObject B) (hash :: text)
      supplied w = (Ok memo, w')
    /\ fst (Memo.decode (Memo.KeyObject reader) memo w') = Ok (hash :: text).
Proof.
  intros S E Haes H58 Hwire NZ.
  destruct (decode_after_encode a reader B text supplied w e E Haes H58
              Hwire NZ) as [memo [w' [Enc Dec]]].
  exists memo, w'. split; [exact Enc|].
  now rewrite Dec, (Ascii7.unframe_framed_short_ascii text S).
Qed.

(* ------------------------------------------------------------------ *)
(** * Further properties of the two files *)

(** ** The nonce generator *)

Module Generator.

Lemma nonce_value_arith (t c : Z) :
  0 <= t < 2 ^ 48 -> 0 <= c ->
  Aes.nonce_value t c = t * 65536 + c mod 65535.
Proof.
  change (2 ^ 48) with 281474976710656. intros Rt Rc.
  unfold Aes.nonce_value, Long_fromNumber, Long_or, Long_shiftLeft,
    Long_wrap.
  change (2 ^ 64) with 18446744073709551616.
  rewrite Z.rem_mod_nonneg by lia.
  pose proof (Z.mod_pos_bound c 65535 ltac:(lia)) as Rr.
  rewrite (Z.mod_small t) by lia.
  assert (S : Z.shiftl t 16 = t * 65536)
    by (rewrite Z.shiftl_mul_pow2 by lia; reflexivity).
  rewrite (Z.mod_small (Z.shiftl t 16)) by (rewrite S; lia).
  rewrite (Z.mod_small (c mod 65535)) by lia.
  rewrite LittleEndian.lor_shiftl_add by (change (2 ^ 16) with 65536; lia).
  reflexivity.
Qed.

Lemma mod_shift_differs (a k : Z) :
  0 < k < 65535 -> a mod 65535 <> (a + k) mod 65535.
Proof.
  intros Rk E.
  pose proof (Z.div_mod a 65535 ltac:(lia)) as D1.
  pose proof (Z.div_mod (a + k) 65535 ltac:(lia)) as D2.
  rewrite <- E in D2. lia.
Qed.

Lemma call_at (w : World) (e t : Z) :
  unique_nonce_entropy w = Some e -> 0 <= e -> 0 <= t < 2 ^ 48 ->
  Aes.uniqueNonce (Loop.at_time w t)
  = (Ok (t * 65536 + (e + 1) mod 65535),
     with_entropy (Loop.at_time w t) (e + 1)).
Proof.
  intros E Re Rt.
  rewrite (uniqueNonce_seeded (Loop.at_time w t) e E).
  cbn [now Loop.at_time]. now rewrite nonce_value_arith by lia.
Qed.

(** Every nonce of a loop is a clock reading of the loop over a counter
    value the loop reached. *)
Lemma calls_shape (clock : list Z) :
  forall (w : World) (e : Z),
    unique_nonce_entropy w = Some e -> 0 <= e ->
    Forall (fun t => 0 <= t < 2 ^ 48) clock ->
    forall x, In x (Loop.call_uniqueNonce clock w) ->
    exists t k,
      0 <= t < 2 ^ 48 /\ 1 <= k <= Z.of_nat (length clock)
      /\ x = t * 65536 + (e + k) mod 65535.
Proof.
  induction clock as [|t later IH]; intros w e E Re F x In; [destruct In|].
  inversion F as [|? ? Rt Flater]; subst.
  cbn [Loop.call_uniqueNonce] in In. rewrite (call_at w e t E Re Rt) in In.
  destruct In as [<-|In].
  - exists t, 1. cbn [length]. repeat split; lia.
  - destruct (IH (with_entropy (Loop.at_time w t) (e + 1)) (e + 1)
                eq_refl ltac:(lia) Flater x In) as [t' [k [Rt' [Rk ->]]]].
    exists t', (k + 1). cbn [length].
    repeat split; try lia. f_equal. f_equal. lia.
Qed.

End Generator.

(** X1: a call on a seeded generator, with a clock reading that fits 48
    bits, returns the clock reading shifted left by 16 plus the
    incremented counter modulo 65535: the upper 48 bits are the clock, the
    lower 16 bits the reduced counter, which is never 0xFFFF. *)
Theorem nonce_layout (w : World) (e : Z) :
  unique_nonce_entropy w = Some e ->
  0 <= e ->
  0 <= now w < 2 ^ 48 ->
  exists n,
    Aes.uniqueNonce w = (Ok n, with_entropy w (e + 1))
    /\ n = now w * 65536 + (e + 1) mod 65535
    /\ Z.shiftr n 16 = now w
    /\ Z.land n 0xFFFF = (e + 1) mod 65535
    /\ Z.land n 0xFFFF <> 0xFFFF
    /\ 0 <= n < 2 ^ 64.
Proof.
  intros E Re Rt.
  exists (now w * 65536 + (e + 1) mod 65535).
  pose proof (Z.mod_pos_bound (e + 1) 65535 ltac:(lia)) as Rr.
  set (r := (e + 1) mod 65535) in *.
  assert (L : Z.land (now w * 65536 + r) 0xFFFF = r).
  { change 0xFFFF with (Z.ones 16). rewrite Z.land_ones by lia.
    change (2 ^ 16) with 65536.
    symmetry. apply (Z.mod_unique_pos _ _ (now w)); lia. }
  split.
  - rewrite (uniqueNonce_seeded w e E).
    now rewrite Generator.nonce_value_arith by lia.
  - split; [reflexivity|]. split.
    + rewrite Z.shiftr_div_pow2 by lia. change (2 ^ 16) with 65536.
      symmetry. apply (Z.div_unique_pos _ _ _ r); lia.
    + split; [exact L|]. split; [rewrite L; lia|].
      change (2 ^ 48) with 281474976710656 in Rt.
      change (2 ^ 64) with 18446744073709551616. lia.
Qed.

(** The generator of [Toy.world0]: counter 7, clock 1700000000000. *)
Lemma nonce_layout_witness :
  unique_nonce_entropy Toy.world0 = Some 7
  /\ 0 <= 7
  /\ 0 <= now Toy.world0 < 2 ^ 48
  /\ exists n,
       Aes.uniqueNonce Toy.world0 = (Ok n, with_entropy Toy.world0 (7 + 1))
       /\ n = now Toy.world0 * 65536 + (7 + 1) mod 65535
       /\ Z.shiftr n 16 = now Toy.world0
       /\ Z.land n 0xFFFF = (7 + 1) mod 65535
       /\ Z.land n 0xFFFF <> 0xFFFF
       /\ 0 <= n < 2 ^ 64.
Proof.
  assert (R : 0 <= now Toy.world0 < 2 ^ 48) by (vm_compute; split; congruence).
  split; [reflexivity|]. split; [lia|]. split; [exact R|].
  exact (nonce_layout Toy.world0 7 eq_refl ltac:(lia) R).
Defined.

(** X2: the nonces of up to 65535 successive calls are pairwise distinct,
    whatever the clock reads at each call (within 48 bits), once the
    counter is seeded with a non-negative value. *)
Theorem nonces_distinct (clock : list Z) (w : World) (e : Z) :
  unique_nonce_entropy w = Some e ->
  0 <= e ->
  Forall (fun t => 0 <= t < 2 ^ 48) clock ->
  Z.of_nat (length clock) <= 65535 ->
  NoDup (Loop.call_uniqueNonce clock w).
Proof.
  revert w e. induction clock as [|t later IH]; intros w e E Re F L.
  - constructor.
  - inversion F as [|? ? Rt Flater]; subst.
    cbn [Loop.call_uniqueNonce].
    rewrite (Generator.call_at w e t E Re Rt).
    cbn [length] in L.
    constructor.
    + intros In.
      destruct (Generator.calls_shape later
                  (with_entropy (Loop.at_time w t) (e + 1)) (e + 1)
                  eq_refl ltac:(lia) Flater _ In) as [t' [k [Rt' [Rk Eq]]]].
      pose proof (Z.mod_pos_bound (e + 1) 65535 ltac:(lia)) as B1.
      pose proof (Z.mod_pos_bound (e + 1 + k) 65535 ltac:(lia)) as B2.
      apply (Generator.mod_shift_differs (e + 1) k); lia.
    + apply (IH (with_entropy (Loop.at_time w t) (e + 1)) (e + 1));
        [reflexivity|lia|exact Flater|lia].
Qed.

(** Three calls, the first two within the same millisecond. *)
Lemma nonces_distinct_witness :
  unique_nonce_entropy Toy.world0 = Some 7
  /\ 0 <= 7
  /\ Forall (fun t => 0 <= t < 2 ^ 48)
       [1700000000000; 1700000000000; 1700000000001]
  /\ Z.of_nat (length [1700000000000; 1700000000000; 1700000000001])
     <= 65535
  /\ NoDup (Loop.call_uniqueNonce
              [1700000000000; 1700000000000; 1700000000001] Toy.world0).
Proof.
  assert (F : Forall (fun t => 0 <= t < 2 ^ 48)
                [1700000000000; 1700000000000; 1700000000001])
    by (repeat constructor; vm_compute; congruence).
  assert (L : Z.of_nat (length [1700000000000; 1700000000000;
                                1700000000001]) <= 65535)
    by (cbn [length]; lia).
  split; [reflexivity|]. split; [lia|]. split; [exact F|]. split; [exact L|].
  exact (nonces_distinct _ Toy.world0 7 eq_refl ltac:(lia) F L).
Defined.

(** X3: at one and the same clock reading the generator repeats itself
    after 65535 calls: a counter 65535 further on gives the same nonce. *)
Theorem nonce_repeats_after_65535_calls (w : World) (e : Z) :
  unique_nonce_entropy w = Some e ->
  0 <= e ->
  fst (Aes.uniqueNonce (with_entropy w (e + 65535)))
  = fst (Aes.uniqueNonce w).
Proof.
  intros E Re.
  rewrite (uniqueNonce_seeded w e E).
  rewrite (uniqueNonce_seeded (with_entropy w (e + 65535)) (e + 65535) eq_refl).
  cbn [fst now with_entropy]. f_equal.
  unfold Aes.nonce_value. rewrite !Z.rem_mod_nonneg by lia.
  replace (e + 65535 + 1) with (e + 1 + 1 * 65535) by lia.
  now rewrite Z_mod_plus_full.
Qed.

Lemma nonce_repeats_witness :
  unique_nonce_entropy Toy.world0 = Some 7
  /\ 0 <= 7
  /\ fst (Aes.uniqueNonce (with_entropy Toy.world0 (7 + 65535)))
     = fst (Aes.uniqueNonce Toy.world0).
Proof.
  split; [reflexivity|]. split; [lia|].
  exact (nonce_repeats_after_65535_calls Toy.world0 7 eq_refl ltac:(lia)).
Defined.

(** X4: a call of the generator never throws and keeps the generator
    sound: the counter afterwards is at least 1, the trace and the clock
    are untouched; a first call draws four random bytes and seeds the
    counter below 65536 before incrementing, a later call increments by
    one and draws nothing. *)
Theorem uniqueNonce_keeps_generator (w : World) :
  (forall e, unique_nonce_entropy w = Some e -> 0 <= e) ->
  exists n e',
    fst (Aes.uniqueNonce w) = Ok n
    /\ unique_nonce_entropy (snd (Aes.uniqueNonce w)) = Some e'
    /\ 1 <= e'
    /\ trace (snd (Aes.uniqueNonce w)) = trace w
    /\ now (snd (Aes.uniqueNonce w)) = now w
    /\ (unique_nonce_entropy w = None ->
        e' <= 65536 /\ drawn (snd (Aes.uniqueNonce w)) = (drawn w + 4)%nat)
    /\ (forall e, unique_nonce_entropy w = Some e ->
        e' = e + 1 /\ drawn (snd (Aes.uniqueNonce w)) = drawn w).
Proof.
  intros Inv. destruct (unique_nonce_entropy w) as [e|] eqn:E.
  - rewrite (uniqueNonce_seeded w e E). specialize (Inv e eq_refl).
    eexists. exists (e + 1). cbn [fst snd].
    split; [reflexivity|]. split; [reflexivity|].
    split; [lia|]. split; [reflexivity|]. split; [reflexivity|].
    split; [intros [=]|].
    intros e0 [= <-]. split; reflexivity.
  - pose proof (uniqueNonce_first_call w E) as F. cbv zeta in F. rewrite F.
    pose proof (Z_of_byte_range (random w (drawn w))) as R0.
    pose proof (Z_of_byte_range (random w (drawn w + 3)%nat)) as R1.
    rewrite LittleEndian.lor_shiftl_add in *
      by (change (2 ^ 8) with 256; lia).
    change (2 ^ 8) with 256 in *.
    eexists. eexists. cbn [fst snd].
    split; [reflexivity|]. split; [reflexivity|].
    split; [lia|]. split; [reflexivity|]. split; [reflexivity|].
    split; [|intros e0 [=]].
    intros _. split; [lia|]. cbn [drawn with_entropy with_drawn]. lia.
Qed.

Lemma uniqueNonce_keeps_generator_witness :
  (forall e, unique_nonce_entropy Toy.world0 = Some e -> 0 <= e)
  /\ exists n e',
       fst (Aes.uniqueNonce Toy.world0) = Ok n
       /\ unique_nonce_entropy (snd (Aes.uniqueNonce Toy.world0)) = Some e'
       /\ 1 <= e'
       /\ trace (snd (Aes.uniqueNonce Toy.world0)) = trace Toy.world0
       /\ now (snd (Aes.uniqueNonce Toy.world0)) = now Toy.world0
       /\ (unique_nonce_entropy Toy.world0 = None ->
           e' <= 65536
           /\ drawn (snd (Aes.uniqueNonce Toy.world0))
              = (drawn Toy.world0 + 4)%nat)
       /\ (forall e, unique_nonce_entropy Toy.world0 = Some e ->
           e' = e + 1
           /\ drawn (snd (Aes.uniqueNonce Toy.world0)) = drawn Toy.world0).
Proof.
  assert (I : forall e, unique_nonce_entropy Toy.world0 = Some e -> 0 <= e)
    by (intros e [= <-]; lia).
  split; [exact I|].
  exact (uniqueNonce_keeps_generator Toy.world0 I).
Defined.

(* ------------------------------------------------------------------ *)
(** ** [encrypt], [decrypt] and [crypt] together *)

Section EnvelopeCrypt.
Context {collab : Collaborators}.

(** [encrypt] in any state: the nonce is the one the generator returns,
    read back from its string. *)
Lemma encrypt_run (priv : PrivateKey) (pub : PublicKey) (text : jsstring)
    (supplied : option Z) (w w1 : World) (n : Long) :
  Aes.uniqueNonce w = (Ok n, w1) ->
  Aes.encrypt priv pub text supplied w
  = (Ok {| Aes.nonce := Aes.NLong (Long_wrap n);
           Aes.message :=
             aes_256_cbc_encrypt (Aes.tag (Aes.material priv pub n))
               (Aes.iv (Aes.material priv pub n)) (Aes.framed text);
           Aes.checksum := Aes.check (Aes.material priv pub n) |},
     with_events w1
       [SharedSecretDerived priv pub;
        CipherCreated (Aes.tag (Aes.material priv pub n))
          (Aes.iv (Aes.material priv pub n))]).
Proof.
  intros U. unfold Aes.encrypt. rewrite (bind_ok _ _ _ _ _ U).
  pose proof (crypt_falsy_checksum priv pub (Aes.NString (Long_toString n))
                (Long_wrap n) (Aes.MBuffer (Aes.framed text)) None w1
                (toLongObj_printed n) eq_refl eq_refl) as C.
  cbv zeta in C. rewrite !material_wrap in C. exact C.
Qed.

(** The outcome of [crypt] on a buffer depends on the keys only through
    the key material. *)
Lemma crypt_same_material (p p' : PrivateKey) (q q' : PublicKey)
    (o : Aes.Nonce) (n : Long) (cipher : Buffer) (c : option Z)
    (w w' : World) :
  Aes.toLongObj o = Ok (Aes.NLong n) ->
  Aes.material p q n = Aes.material p' q' n ->
  fst (Aes.crypt p q o (Aes.MBuffer cipher) c w)
  = fst (Aes.crypt p' q' o (Aes.MBuffer cipher) c w').
Proof.
  intros Ho H.
  destruct (Aes.truthy_number c) eqn:TN.
  - destruct c as [v|]; [|discriminate].
    assert (NZ : v <> 0).
    { cbn [Aes.truthy_number] in TN. apply negb_true_iff in TN.
      now apply Z.eqb_neq. }
    destruct (Z.eq_dec v (Aes.check (Aes.material p q n))) as [EQ|NE].
    + pose proof (crypt_checksum_match p q o n (Aes.MBuffer cipher) v w
                    Ho NZ EQ eq_refl) as L.
      rewrite H in EQ.
      pose proof (crypt_checksum_match p' q' o n (Aes.MBuffer cipher) v w'
                    Ho NZ EQ eq_refl) as R.
      cbv zeta in L, R. rewrite L, R, H. reflexivity.
    + rewrite (crypt_checksum_mismatch p q o n _ v w Ho NZ NE).
      rewrite H in NE.
      now rewrite (crypt_checksum_mismatch p' q' o n _ v w' Ho NZ NE).
  - pose proof (crypt_falsy_checksum p q o n (Aes.MBuffer cipher) c w
                  Ho TN eq_refl) as L.
    pose proof (crypt_falsy_checksum p' q' o n (Aes.MBuffer cipher) c w'
                  Ho TN eq_refl) as R.
    cbv zeta in L, R. rewrite L, R, H. reflexivity.
Qed.

End EnvelopeCrypt.

(** X5: [decrypt] undoes [encrypt]: fed the nonce, message and checksum
    that [encrypt] returned, a reader who derives the same shared secret
    gets back exactly the bytes that were encrypted (the framed message),
    provided the cipher decrypts what it encrypted and the derived
    checksum is not 0. *)
Theorem decrypt_inverts_encrypt {collab : Collaborators}
    (priv reader : PrivateKey) (pub other : PublicKey) (text : jsstring)
    (supplied : option Z) (w w1 : World) (n : Long) :
  (forall tag iv plain,
     aes_256_cbc_decrypt tag iv (aes_256_cbc_encrypt tag iv plain)
     = Some plain) ->
  Aes.uniqueNonce w = (Ok n, w1) ->
  Aes.check (Aes.material priv pub n) <> 0 ->
  get_shared_secret reader other = get_shared_secret priv pub ->
  exists r w2,
    Aes.encrypt priv pub text supplied w = (Ok r, w2)
    /\ Aes.decrypt reader other (Aes.nonce r) (Aes.MBuffer (Aes.message r))
         (Aes.checksum r) w2
       = (Ok (Aes.framed text),
          with_events w2
            [SharedSecretDerived reader other;
             DecipherCreated (Aes.tag (Aes.material priv pub n))
               (Aes.iv (Aes.material priv pub n))]).
Proof.
  intros Haes U NZ Hsec.
  eexists. eexists. split; [exact (encrypt_run priv pub text supplied w w1 n U)|].
  cbn [Aes.nonce Aes.message Aes.checksum].
  rewrite decrypt_of_crypt.
  assert (M : Aes.material reader other (Long_wrap n)
              = Aes.material priv pub n).
  { rewrite material_wrap. now apply material_same_secret. }
  epose proof (crypt_checksum_match reader other (Aes.NLong (Long_wrap n))
                 (Long_wrap n)
                 (Aes.MBuffer
                    (aes_256_cbc_encrypt (Aes.tag (Aes.material priv pub n))
                       (Aes.iv (Aes.material priv pub n)) (Aes.framed text)))
                 (Aes.check (Aes.material priv pub n)) _ eq_refl) as C.
  cbv zeta in C. rewrite M in C.
  rewrite C; [|exact NZ|reflexivity|reflexivity].
  cbn [Aes.binary_of]. rewrite Haes. reflexivity.
Qed.

(** Alice encrypts "héllo" for bob, bob decrypts. *)
Lemma decrypt_inverts_encrypt_witness :
  (forall tag iv plain,
     aes_256_cbc_decrypt tag iv (aes_256_cbc_encrypt tag iv plain)
     = Some plain)
  /\ Aes.uniqueNonce Toy.world0
     = (Ok 111411200000000008, with_entropy Toy.world0 8)
  /\ Aes.check (Aes.material Toy.alice Toy.bob_pub 111411200000000008) <> 0
  /\ get_shared_secret Toy.bob Toy.alice_pub
     = get_shared_secret Toy.alice Toy.bob_pub
  /\ exists r w2,
       Aes.encrypt Toy.alice Toy.bob_pub [104; 233; 108; 108; 111] None
         Toy.world0 = (Ok r, w2)
       /\ Aes.decrypt Toy.bob Toy.alice_pub (Aes.nonce r)
            (Aes.MBuffer (Aes.message r)) (Aes.checksum r) w2
          = (Ok (Aes.framed [104; 233; 108; 108; 111]),
             with_events w2
               [SharedSecretDerived Toy.bob Toy.alice_pub;
                DecipherCreated
                  (Aes.tag (Aes.material Toy.alice Toy.bob_pub
                              111411200000000008))
                  (Aes.iv (Aes.material Toy.alice Toy.bob_pub
                             111411200000000008))]).
Proof.
  assert (Haes : forall tag iv plain,
             aes_256_cbc_decrypt tag iv (aes_256_cbc_encrypt tag iv plain)
             = Some plain) by (intros; reflexivity).
  assert (U : Aes.uniqueNonce Toy.world0
              = (Ok 111411200000000008, with_entropy Toy.world0 8))
    by reflexivity.
  assert (NZ : Aes.check (Aes.material Toy.alice Toy.bob_pub
                            111411200000000008) <> 0)
    by (vm_compute; discriminate).
  assert (Hsec : get_shared_secret Toy.bob Toy.alice_pub
                 = get_shared_secret Toy.alice Toy.bob_pub)
    by (vm_compute; reflexivity).
  split; [exact Haes|]. split; [exact U|]. split; [exact NZ|].
  split; [exact Hsec|].
  exact (decrypt_inverts_encrypt (collab := Toy.collaborators)
           Toy.alice Toy.bob Toy.bob_pub Toy.alice_pub
           [104; 233; 108; 108; 111] None Toy.world0 _ _ Haes U NZ Hsec).
Defined.

(** X6: [decrypt] refuses a non-zero expected checksum that differs from
    the one derived from the nonce (a [Long], or a string read as one):
    it throws "Invalid nonce" whatever the message is, having derived the
    shared secret and created no decipher. *)
Theorem decrypt_refuses_checksum_mismatch {collab : Collaborators}
    (priv : PrivateKey) (pub : PublicKey) (o : Aes.Nonce) (n : Long)
    (m : Aes.Message) (expected : Z) (w : World) :
  Aes.toLongObj o = Ok (Aes.NLong n) ->
  expected <> 0 ->
  expected <> Aes.check (Aes.material priv pub n) ->
  Aes.decrypt priv pub o m expected w
  = (Throw InvalidNonce, with_events w [SharedSecretDerived priv pub])
  /\ trace (snd (Aes.decrypt priv pub o m expected w))
     = trace w ++ [SharedSecretDerived priv pub].
Proof.
  intros H NZ NE.
  assert (E : Aes.decrypt priv pub o m expected w
              = (Throw InvalidNonce,
                 with_events w [SharedSecretDerived priv pub])).
  { rewrite decrypt_of_crypt.
    now rewrite (crypt_checksum_mismatch priv pub o n m expected w H NZ NE). }
  split; [exact E|]. now rewrite E.
Qed.

(** For alice, bob and the nonce "12345" the derived checksum is 12345,
    not 999. *)
Lemma decrypt_refuses_checksum_mismatch_witness :
  Aes.toLongObj (Aes.NString (lit "12345")) = Ok (Aes.NLong 12345)
  /\ 999 <> 0
  /\ 999 <> Aes.check (Aes.material Toy.bob Toy.alice_pub 12345)
  /\ (Aes.decrypt Toy.bob Toy.alice_pub (Aes.NString (lit "12345"))
        (Aes.MBuffer [x41; x42]) 999 Toy.world0
      = (Throw InvalidNonce,
         with_events Toy.world0 [SharedSecretDerived Toy.bob Toy.alice_pub])
      /\ trace (snd (Aes.decrypt Toy.bob Toy.alice_pub
                       (Aes.NString (lit "12345"))
                       (Aes.MBuffer [x41; x42]) 999 Toy.world0))
         = trace Toy.world0 ++ [SharedSecretDerived Toy.bob Toy.alice_pub]).
Proof.
  assert (H : Aes.toLongObj (Aes.NString (lit "12345"))
              = Ok (Aes.NLong 12345)) by reflexivity.
  assert (NZ : 999 <> 0) by discriminate.
  assert (NE : 999 <> Aes.check (Aes.material Toy.bob Toy.alice_pub 12345))
    by (vm_compute; discriminate).
  split; [exact H|]. split; [exact NZ|]. split; [exact NE|].
  exact (decrypt_refuses_checksum_mismatch (collab := Toy.collaborators)
           Toy.bob Toy.alice_pub (Aes.NString (lit "12345")) 12345
           (Aes.MBuffer [x41; x42]) 999 Toy.world0 H NZ NE).
Defined.

(* ------------------------------------------------------------------ *)
(** ** The paths through [decode] *)

Section DecodePaths.
Context {collab : Collaborators}.

(** Coercing the key argument leaves the state alone. *)
Lemma toPrivateObj_state (k : Memo.KeyArg PrivateKey) (w : World) :
  snd (Memo.toPrivateObj k w) = w.
Proof.
  destruct k as [priv|[|c s]]; try reflexivity.
  unfold Memo.toPrivateObj.
  destruct (PrivateKey_fromString (c :: s)); reflexivity.
Qed.

(** [decode] on a marked memo whose check field is not 0 and equals the
    derived checksum: the outcome is the one of the decipher. *)
Lemma decode_matching (k : Memo.KeyArg PrivateKey) (priv : PrivateKey)
    (body : jsstring) (bytes : Buffer) (env : Wire.Envelope) (w : World) :
  Memo.toPrivateObj k w = (Ok (Some priv), w) ->
  bs58_decode body = Some bytes ->
  EncryptedMemoD bytes = Some env ->
  Wire.check env <> 0 ->
  Wire.check env
  = Aes.check (Aes.material priv (Memo.counterparty priv env)
                 (Wire.nonce env)) ->
  let km := Aes.material priv (Memo.counterparty priv env) (Wire.nonce env) in
  Memo.decode k (hash :: body) w
  = (match aes_256_cbc_decrypt (Aes.tag km) (Aes.iv km)
             (Wire.encrypted env) with
     | Some plain => Ok (Memo.unframe plain)
     | None => Throw DecipherFailure
     end,
     with_events w
       [SharedSecretDerived priv (Memo.counterparty priv env);
        DecipherCreated (Aes.tag km) (Aes.iv km)]).
Proof.
  intros K B D NZ EQ km.
  rewrite (decode_marked k priv body bytes env w K B D), decrypt_of_crypt.
  pose proof (crypt_checksum_match priv (Memo.counterparty priv env)
                (Aes.NLong (Wire.nonce env)) (Wire.nonce env)
                (Aes.MBuffer (Wire.encrypted env))
                (Wire.check env) w eq_refl NZ EQ eq_refl) as C.
  cbv zeta in C. fold km in C. rewrite C. cbn [Aes.binary_of].
  destruct (aes_256_cbc_decrypt _ _ _); reflexivity.
Qed.

End DecodePaths.

(** X7: the main path of [decode]: when the check field is not 0 and
    equals the checksum the reader derives, the decipher yields [plain]
    and [plain] parses as a varint-prefixed string [text], the result is
    the marker followed by [text]; the crypto calls are one shared-secret
    derivation and one decipher. *)
Theorem framed_memo_decoded {collab : Collaborators}
    (k : Memo.KeyArg PrivateKey) (priv : PrivateKey) (body : jsstring)
    (bytes plain : Buffer) (env : Wire.Envelope) (text : jsstring)
    (w : World) :
  Memo.toPrivateObj k w = (Ok (Some priv), w) ->
  bs58_decode body = Some bytes ->
  EncryptedMemoD bytes = Some env ->
  Wire.check env <> 0 ->
  Wire.check env
  = Aes.check (Aes.material priv (Memo.counterparty priv env)
                 (Wire.nonce env)) ->
  aes_256_cbc_decrypt
    (Aes.tag (Aes.material priv (Memo.counterparty priv env) (Wire.nonce env)))
    (Aes.iv (Aes.material priv (Memo.counterparty priv env) (Wire.nonce env)))
    (Wire.encrypted env) = Some plain ->
  readVString plain = Some text ->
  Memo.decode k (hash :: body) w
  = (Ok (hash :: text),
     with_events w
       [SharedSecretDerived priv (Memo.counterparty priv env);
        DecipherCreated
          (Aes.tag (Aes.material priv (Memo.counterparty priv env)
                      (Wire.nonce env)))
          (Aes.iv (Aes.material priv (Memo.counterparty priv env)
                     (Wire.nonce env)))]).
Proof.
  intros K B D NZ EQ P R.
  pose proof (decode_matching k priv body bytes env w K B D NZ EQ) as E.
  cbv zeta in E. rewrite E, P.
  unfold Memo.unframe. now rewrite to_binary_of_binary, R.
Qed.

(** X8: a failure of the decipher is not recovered from: with a matching
    non-zero check field, [decode] throws the decipher's error after
    having created the decipher; the unframed-text fallback does not
    apply. *)
Theorem decipher_failure_propagates {collab : Collaborators}
    (k : Memo.KeyArg PrivateKey) (priv : PrivateKey) (body : jsstring)
    (bytes : Buffer) (env : Wire.Envelope) (w : World) :
  Memo.toPrivateObj k w = (Ok (Some priv), w) ->
  bs58_decode body = Some bytes ->
  EncryptedMemoD bytes = Some env ->
  Wire.check env <> 0 ->
  Wire.check env
  = Aes.check (Aes.material priv (Memo.counterparty priv env)
                 (Wire.nonce env)) ->
  aes_256_cbc_decrypt
    (Aes.tag (Aes.material priv (Memo.counterparty priv env) (Wire.nonce env)))
    (Aes.iv (Aes.material priv (Memo.counterparty priv env) (Wire.nonce env)))
    (Wire.encrypted env) = None ->
  Memo.decode k (hash :: body) w
  = (Throw DecipherFailure,
     with_events w
       [SharedSecretDerived priv (Memo.counterparty priv env);
        DecipherCreated
          (Aes.tag (Aes.material priv (Memo.counterparty priv env)
                      (Wire.nonce env)))
          (Aes.iv (Aes.material priv (Memo.counterparty priv env)
                     (Wire.nonce env)))]).
Proof.
  intros K B D NZ EQ P.
  pose proof (decode_matching k priv body bytes env w K B D NZ EQ) as E.
  cbv zeta in E. now rewrite E, P.
Qed.

(** X9: a non-zero check field that differs from the checksum the reader
    derives (a wrong key, or a tampered nonce or check field) makes
    [decode] throw "Invalid nonce"; the shared secret was derived, no
    decipher was created. *)
Theorem decode_refuses_checksum_mismatch {collab : Collaborators}
    (k : Memo.KeyArg PrivateKey) (priv : PrivateKey) (body : jsstring)
    (bytes : Buffer) (env : Wire.Envelope) (w : World) :
  Memo.toPrivateObj k w = (Ok (Some priv), w) ->
  bs58_decode body = Some bytes ->
  EncryptedMemoD bytes = Some env ->
  Wire.check env <> 0 ->
  Wire.check env
  <> Aes.check (Aes.material priv (Memo.counterparty priv env)
                  (Wire.nonce env)) ->
  Memo.decode k (hash :: body) w
  = (Throw InvalidNonce,
     with_events w [SharedSecretDerived priv (Memo.counterparty priv env)]).
Proof.
  intros K B D NZ NE.
  rewrite (decode_marked k priv body bytes env w K B D), decrypt_of_crypt.
  now rewrite (crypt_checksum_mismatch priv (Memo.counterparty priv env)
                 (Aes.NLong (Wire.nonce env)) (Wire.nonce env) _
                 (Wire.check env) w eq_refl NZ NE).
Qed.

(** X10: an envelope whose check field is 0 is never refused: whoever the
    reader is, [decode] compares no checksum, creates a cipher (not a
    decipher), and returns the unframing of the AES encryption of the
    ciphertext, without error. *)
Theorem decode_accepts_zero_check {collab : Collaborators}
    (k : Memo.KeyArg PrivateKey) (priv : PrivateKey) (body : jsstring)
    (bytes : Buffer) (env : Wire.Envelope) (w : World) :
  Memo.toPrivateObj k w = (Ok (Some priv), w) ->
  bs58_decode body = Some bytes ->
  EncryptedMemoD bytes = Some env ->
  Wire.check env = 0 ->
  Memo.decode k (hash :: body) w
  = (Ok (Memo.unframe
           (aes_256_cbc_encrypt
              (Aes.tag (Aes.material priv (Memo.counterparty priv env)
                          (Wire.nonce env)))
              (Aes.iv (Aes.material priv (Memo.counterparty priv env)
                         (Wire.nonce env)))
              (Wire.encrypted env))),
     with_events w
       [SharedSecretDerived priv (Memo.counterparty priv env);
        CipherCreated
          (Aes.tag (Aes.material priv (Memo.counterparty priv env)
                      (Wire.nonce env)))
          (Aes.iv (Aes.material priv (Memo.counterparty priv env)
                     (Wire.nonce env)))]).
Proof.
  intros K B D Z0.
  rewrite (decode_marked k priv body bytes env w K B D), decrypt_of_crypt.
  rewrite Z0.
  pose proof (crypt_falsy_checksum priv (Memo.counterparty priv env)
                (Aes.NLong (Wire.nonce env)) (Wire.nonce env)
                (Aes.MBuffer (Wire.encrypted env))
                (Some 0) w eq_refl eq_refl eq_refl) as C.
  cbv zeta in C. now rewrite C.
Qed.

(** X11: [decode] makes no crypto call unless the memo is marked, the key
    argument coerced to a key, the body decoded from Base58 and the bytes
    deserialized to an envelope: in every other case, whatever it returns
    or throws, the trace is untouched. *)
Theorem decode_no_crypto_unless_parsed {collab : Collaborators}
    (k : Memo.KeyArg PrivateKey) (memo : jsstring) (w : World) :
  trace (snd (Memo.decode k memo w)) = trace w
  \/ exists priv body bytes env,
       memo = hash :: body
       /\ Memo.toPrivateObj k w = (Ok (Some priv), w)
       /\ bs58_decode body = Some bytes
       /\ EncryptedMemoD bytes = Some env.
Proof.
  destruct memo as [|c body]; [left; reflexivity|].
  unfold Memo.decode. cbn [startsWith_hash].
  destruct (Z.eqb_spec c hash) as [->|_]; [|left; reflexivity].
  cbn [negb substring1 tl].
  pose proof (toPrivateObj_state k w) as S.
  destruct (Memo.toPrivateObj k w) as [[[priv|]|e] w0] eqn:K;
    cbn [snd] in S; subst w0.
  - destruct (bs58_decode body) as [bytes|] eqn:B.
    + destruct (EncryptedMemoD bytes) as [env|] eqn:D.
      * right. exists priv, body, bytes, env. now repeat split.
      * left. rewrite (bind_ok _ _ _ _ _ K).
        unfold bind at 1. cbn [ret]. rewrite D. reflexivity.
    + left. rewrite (bind_ok _ _ _ _ _ K). reflexivity.
  - left. rewrite (bind_ok _ _ _ _ _ K).
    destruct (bs58_decode body) as [bytes|]; [|reflexivity].
    unfold bind at 1. cbn [ret].
    destruct (EncryptedMemoD bytes) as [env|]; reflexivity.
  - left. now rewrite (bind_throw _ _ _ _ _ K).
Qed.

(** Bob reads the framed envelope of alice. *)
Lemma framed_memo_decoded_witness :
  Memo.toPrivateObj (Memo.KeyObject Toy.bob) Toy.world0
  = (Ok (Some Toy.bob), Toy.world0)
  /\ bs58_decode (of_binary Samples.framed_bytes) = Some Samples.framed_bytes
  /\ EncryptedMemoD Samples.framed_bytes = Some Toy.framed_envelope
  /\ Wire.check Toy.framed_envelope <> 0
  /\ Wire.check Toy.framed_envelope
     = Aes.check (Aes.material Toy.bob
                    (Memo.counterparty Toy.bob Toy.framed_envelope)
                    (Wire.nonce Toy.framed_envelope))
  /\ aes_256_cbc_decrypt
       (Aes.tag (Aes.material Toy.bob
                   (Memo.counterparty Toy.bob Toy.framed_envelope)
                   (Wire.nonce Toy.framed_envelope)))
       (Aes.iv (Aes.material Toy.bob
                  (Memo.counterparty Toy.bob Toy.framed_envelope)
                  (Wire.nonce Toy.framed_envelope)))
       (Wire.encrypted Toy.framed_envelope)
     = Some [x05; x68; x65; x6c; x6c; x6f]
  /\ readVString [x05; x68; x65; x6c; x6c; x6f] = Some (lit "hello")
  /\ Memo.decode (Memo.KeyObject Toy.bob)
       (hash :: of_binary Samples.framed_bytes) Toy.world0
     = (Ok (hash :: lit "hello"),
        with_events Toy.world0
          [SharedSecretDerived Toy.bob
             (Memo.counterparty Toy.bob Toy.framed_envelope);
           DecipherCreated
             (Aes.tag (Aes.material Toy.bob
                         (Memo.counterparty Toy.bob Toy.framed_envelope)
                         (Wire.nonce Toy.framed_envelope)))
             (Aes.iv (Aes.material Toy.bob
                        (Memo.counterparty Toy.bob Toy.framed_envelope)
                        (Wire.nonce Toy.framed_envelope)))]).
Proof.
  assert (K : Memo.toPrivateObj (Memo.KeyObject Toy.bob) Toy.world0
              = (Ok (Some Toy.bob), Toy.world0)) by reflexivity.
  assert (B : bs58_decode (of_binary Samples.framed_bytes)
              = Some Samples.framed_bytes) by (vm_compute; reflexivity).
  assert (D : EncryptedMemoD Samples.framed_bytes = Some Toy.framed_envelope)
    by (vm_compute; reflexivity).
  assert (NZ : Wire.check Toy.framed_envelope <> 0)
    by (vm_compute; discriminate).
  assert (EQ : Wire.check Toy.framed_envelope
               = Aes.check (Aes.material Toy.bob
                              (Memo.counterparty Toy.bob Toy.framed_envelope)
                              (Wire.nonce Toy.framed_envelope)))
    by (vm_compute; reflexivity).
  assert (P : aes_256_cbc_decrypt
                (Aes.tag (Aes.material Toy.bob
                            (Memo.counterparty Toy.bob Toy.framed_envelope)
                            (Wire.nonce Toy.framed_envelope)))
                (Aes.iv (Aes.material Toy.bob
                           (Memo.counterparty Toy.bob Toy.framed_envelope)
                           (Wire.nonce Toy.framed_envelope)))
                (Wire.encrypted Toy.framed_envelope)
              = Some [x05; x68; x65; x6c; x6c; x6f]) by reflexivity.
  assert (R : readVString [x05; x68; x65; x6c; x6c; x6f] = Some (lit "hello"))
    by reflexivity.
  split; [exact K|]. split; [exact B|]. split; [exact D|].
  split; [exact NZ|]. split; [exact EQ|]. split; [exact P|].
  split; [exact R|].
  exact (framed_memo_decoded (collab := Toy.collaborators)
           (Memo.KeyObject Toy.bob) Toy.bob _ _ _ _ _ Toy.world0
           K B D NZ EQ P R).
Defined.

(** With the block-checking decipher, the six-byte ciphertext of the
    framed envelope is refused by the decipher. *)
Lemma decipher_failure_propagates_witness :
  @Memo.toPrivateObj Samples.block_collaborators (Memo.KeyObject Toy.bob)
    Toy.world0 = (Ok (Some Toy.bob), Toy.world0)
  /\ @bs58_decode Samples.block_collaborators
       (of_binary Samples.framed_bytes) = Some Samples.framed_bytes
  /\ @EncryptedMemoD Samples.block_collaborators Samples.framed_bytes
     = Some Toy.framed_envelope
  /\ Wire.check Toy.framed_envelope <> 0
  /\ Wire.check Toy.framed_envelope
     = Aes.check (@Aes.material Samples.block_collaborators Toy.bob
                    (@Memo.counterparty Samples.block_collaborators Toy.bob
                       Toy.framed_envelope)
                    (Wire.nonce Toy.framed_envelope))
  /\ @aes_256_cbc_decrypt Samples.block_collaborators
       (Aes.tag (@Aes.material Samples.block_collaborators Toy.bob
                   (@Memo.counterparty Samples.block_collaborators Toy.bob
                      Toy.framed_envelope)
                   (Wire.nonce Toy.framed_envelope)))
       (Aes.iv (@Aes.material Samples.block_collaborators Toy.bob
                  (@Memo.counterparty Samples.block_collaborators Toy.bob
                     Toy.framed_envelope)
                  (Wire.nonce Toy.framed_envelope)))
       (Wire.encrypted Toy.framed_envelope) = None
  /\ @Memo.decode Samples.block_collaborators (Memo.KeyObject Toy.bob)
       (hash :: of_binary Samples.framed_bytes) Toy.world0
     = (Throw DecipherFailure,
        with_events Toy.world0
          [SharedSecretDerived Toy.bob
             (@Memo.counterparty Samples.block_collaborators Toy.bob
                Toy.framed_envelope);
           DecipherCreated
             (Aes.tag (@Aes.material Samples.block_collaborators Toy.bob
                         (@Memo.counterparty Samples.block_collaborators
                            Toy.bob Toy.framed_envelope)
                         (Wire.nonce Toy.framed_envelope)))
             (Aes.iv (@Aes.material Samples.block_collaborators Toy.bob
                        (@Memo.counterparty Samples.block_collaborators
                           Toy.bob Toy.framed_envelope)
                        (Wire.nonce Toy.framed_envelope)))]).
Proof.
  split; [reflexivity|].
  split; [vm_compute; reflexivity|].
  split; [vm_compute; reflexivity|].
  split; [vm_compute; discriminate|].
  split; [vm_compute; reflexivity|].
  split; [vm_compute; reflexivity|].
  apply (decipher_failure_propagates (collab := Samples.block_collaborators)
           (Memo.KeyObject Toy.bob) Toy.bob (of_binary Samples.framed_bytes)
           Samples.framed_bytes Toy.framed_envelope Toy.world0).
  - reflexivity.
  - vm_compute; reflexivity.
  - vm_compute; reflexivity.
  - vm_compute; discriminate.
  - vm_compute; reflexivity.
  - vm_compute; reflexivity.
Defined.

(** Bob reads the envelope whose check field was overwritten with 999. *)
Lemma decode_refuses_checksum_mismatch_witness :
  Memo.toPrivateObj (Memo.KeyObject Toy.bob) Toy.world0
  = (Ok (Some Toy.bob), Toy.world0)
  /\ bs58_decode (of_binary Samples.tampered_bytes)
     = Some Samples.tampered_bytes
  /\ EncryptedMemoD Samples.tampered_bytes = Some Samples.tampered_envelope
  /\ Wire.check Samples.tampered_envelope <> 0
  /\ Wire.check Samples.tampered_envelope
     <> Aes.check (Aes.material Toy.bob
                     (Memo.counterparty Toy.bob Samples.tampered_envelope)
                     (Wire.nonce Samples.tampered_envelope))
  /\ Memo.decode (Memo.KeyObject Toy.bob)
       (hash :: of_binary Samples.tampered_bytes) Toy.world0
     = (Throw InvalidNonce,
        with_events Toy.world0
          [SharedSecretDerived Toy.bob
             (Memo.counterparty Toy.bob Samples.tampered_envelope)]).
Proof.
  assert (K : Memo.toPrivateObj (Memo.KeyObject Toy.bob) Toy.world0
              = (Ok (Some Toy.bob), Toy.world0)) by reflexivity.
  assert (B : bs58_decode (of_binary Samples.tampered_bytes)
              = Some Samples.tampered_bytes) by (vm_compute; reflexivity).
  assert (D : EncryptedMemoD Samples.tampered_bytes
              = Some Samples.tampered_envelope) by (vm_compute; reflexivity).
  assert (NZ : Wire.check Samples.tampered_envelope <> 0)
    by (vm_compute; discriminate).
  assert (NE : Wire.check Samples.tampered_envelope
               <> Aes.check (Aes.material Toy.bob
                               (Memo.counterparty Toy.bob
                                  Samples.tampered_envelope)
                               (Wire.nonce Samples.tampered_envelope)))
    by (vm_compute; discriminate).
  split; [exact K|]. split; [exact B|]. split; [exact D|].
  split; [exact NZ|]. split; [exact NE|].
  exact (decode_refuses_checksum_mismatch (collab := Toy.collaborators)
           (Memo.KeyObject Toy.bob) Toy.bob _ _ _ Toy.world0 K B D NZ NE).
Defined.

(** Carol, a stranger to alice and bob, reads the envelope whose check
    field is 0. *)
Lemma decode_accepts_zero_check_witness :
  Memo.toPrivateObj (Memo.KeyObject Samples.carol) Toy.world0
  = (Ok (Some Samples.carol), Toy.world0)
  /\ bs58_decode (of_binary Samples.zero_check_bytes)
     = Some Samples.zero_check_bytes
  /\ EncryptedMemoD Samples.zero_check_bytes
     = Some Samples.zero_check_envelope
  /\ Wire.check Samples.zero_check_envelope = 0
  /\ Memo.decode (Memo.KeyObject Samples.carol)
       (hash :: of_binary Samples.zero_check_bytes) Toy.world0
     = (Ok (Memo.unframe
              (aes_256_cbc_encrypt
                 (Aes.tag (Aes.material Samples.carol
                             (Memo.counterparty Samples.carol
                                Samples.zero_check_envelope)
                             (Wire.nonce Samples.zero_check_envelope)))
                 (Aes.iv (Aes.material Samples.carol
                            (Memo.counterparty Samples.carol
                               Samples.zero_check_envelope)
                            (Wire.nonce Samples.zero_check_envelope)))
                 (Wire.encrypted Samples.zero_check_envelope))),
        with_events Toy.world0
          [SharedSecretDerived Samples.carol
             (Memo.counterparty Samples.carol Samples.zero_check_envelope);
           CipherCreated
             (Aes.tag (Aes.material Samples.carol
                         (Memo.counterparty Samples.carol
                            Samples.zero_check_envelope)
                         (Wire.nonce Samples.zero_check_envelope)))
             (Aes.iv (Aes.material Samples.carol
                        (Memo.counterparty Samples.carol
                           Samples.zero_check_envelope)
                        (Wire.nonce Samples.zero_check_envelope)))]).
Proof.
  assert (K : Memo.toPrivateObj (Memo.KeyObject Samples.carol) Toy.world0
              = (Ok (Some Samples.carol), Toy.world0)) by reflexivity.
  assert (B : bs58_decode (of_binary Samples.zero_check_bytes)
              = Some Samples.zero_check_bytes) by (vm_compute; reflexivity).
  assert (D : EncryptedMemoD Samples.zero_check_bytes
              = Some Samples.zero_check_envelope)
    by (vm_compute; reflexivity).
  assert (Z0 : Wire.check Samples.zero_check_envelope = 0) by reflexivity.
  split; [exact K|]. split; [exact B|]. split; [exact D|].
  split; [exact Z0|].
  exact (decode_accepts_zero_check (collab := Toy.collaborators)
           (Memo.KeyObject Samples.carol) Samples.carol _ _ _ Toy.world0
           K B D Z0).
Defined.

(* ------------------------------------------------------------------ *)
(** ** [encode] and the key arguments *)

(** X12: for key objects and a marked memo [encode] does not throw: it
    returns the marker followed by the Base58 form of the serialized
    envelope whose [from] is the sender's public key, whose [to] is the
    recipient's key, whose nonce is the generator's, whose ciphertext is
    the encryption of the framed text and whose check field is the
    checksum a reader re-derives from the envelope's own nonce. *)
Theorem encode_builds_consistent_envelope {collab : Collaborators}
    (a : PrivateKey) (B : PublicKey) (text : jsstring) (supplied : option Z)
    (w w1 : World) (n : Long) :
  Aes.uniqueNonce w = (Ok n, w1) ->
  let km := Aes.material a B n in
  let env := {| Wire.from := createPublic a;
                Wire.to := B;
                Wire.nonce := Long_wrap n;
                Wire.check := Aes.check km;
                Wire.encrypted :=
                  aes_256_cbc_encrypt (Aes.tag km) (Aes.iv km)
                    (Aes.framed text) |} in
  Memo.encode (Memo.KeyObject a) (Memo.KeyObject B) (hash :: text) supplied w
  = (Ok (hash :: bs58_encode (EncryptedMemo env)),
     with_events w1
       [SharedSecretDerived a B; CipherCreated (Aes.tag km) (Aes.iv km)])
  /\ Wire.check env = Aes.check (Aes.material a B (Wire.nonce env)).
Proof.
  intros U km env. split.
  - unfold Memo.encode.
    change (startsWith_hash (hash :: text)) with true. cbn [negb].
    unfold Memo.encode_envelope.
    cbn [substring1 tl Memo.toPrivateObj Memo.toPublicObj].
    unfold bind at 2. cbn [ret]. unfold bind at 2. cbn [ret].
    rewrite (bind_ok _ _ _ _ _
               (bind_ok _ _ _ _ _ (encrypt_run a B text supplied w w1 n U))).
    reflexivity.
  - subst env. cbn [Wire.check Wire.nonce].
    now rewrite material_wrap.
Qed.

(** Alice encodes "#hello" for bob in [Toy.world0]. *)
Lemma encode_builds_consistent_envelope_witness :
  Aes.uniqueNonce Toy.world0
  = (Ok 111411200000000008, with_entropy Toy.world0 8)
  /\ (let km := Aes.material Toy.alice Toy.bob_pub 111411200000000008 in
      let env := {| Wire.from := createPublic Toy.alice;
                    Wire.to := Toy.bob_pub;
                    Wire.nonce := Long_wrap 111411200000000008;
                    Wire.check := Aes.check km;
                    Wire.encrypted :=
                      aes_256_cbc_encrypt (Aes.tag km) (Aes.iv km)
                        (Aes.framed (lit "hello")) |} in
      Memo.encode (Memo.KeyObject Toy.alice) (Memo.KeyObject Toy.bob_pub)
        (hash :: lit "hello") None Toy.world0
      = (Ok (hash :: bs58_encode (EncryptedMemo env)),
         with_events (with_entropy Toy.world0 8)
           [SharedSecretDerived Toy.alice Toy.bob_pub;
            CipherCreated (Aes.tag km) (Aes.iv km)])
      /\ Wire.check env
         = Aes.check (Aes.material Toy.alice Toy.bob_pub (Wire.nonce env))).
Proof.
  assert (U : Aes.uniqueNonce Toy.world0
              = (Ok 111411200000000008, with_entropy Toy.world0 8))
    by reflexivity.
  split; [exact U|].
  exact (encode_builds_consistent_envelope (collab := Toy.collaborators)
           Toy.alice Toy.bob_pub (lit "hello") None Toy.world0 _ _ U).
Defined.

(** X13: the empty string as private key is passed on as it is.
    [encode] throws a TypeError only inside [crypt], after the generator
    handed out a nonce (the counter has moved).  [decode] decodes the memo
    body from Base58 and deserializes it before it touches the key: a body
    that does not decode throws the Base58 error, bytes that do not
    deserialize throw the deserializer's error, and the TypeError is
    thrown exactly when both steps succeeded; in every case the state is
    untouched. *)
Theorem empty_private_key_string {collab : Collaborators}
    (B : PublicKey) (text body : jsstring) (supplied : option Z)
    (w w1 : World) (n : Long) :
  Aes.uniqueNonce w = (Ok n, w1) ->
  Memo.encode (Memo.KeyString []) (Memo.KeyObject B) (hash :: text)
    supplied w = (Throw TypeError, w1)
  /\ Memo.decode (Memo.KeyString []) (hash :: body) w
     = (Throw match bs58_decode body with
              | None => Base58Failure
              | Some bytes =>
                  match EncryptedMemoD bytes with
                  | None => DeserializeFailure
                  | Some _ => TypeError
                  end
              end, w)
  /\ (fst (Memo.decode (Memo.KeyString []) (hash :: body) w) = Throw TypeError
      <-> exists bytes env,
            bs58_decode body = Some bytes /\ EncryptedMemoD bytes = Some env).
Proof.
  intros U.
  assert (Dec : Memo.decode (Memo.KeyString []) (hash :: body) w
                = (Throw match bs58_decode body with
                         | None => Base58Failure
                         | Some bytes =>
                             match EncryptedMemoD bytes with
                             | None => DeserializeFailure
                             | Some _ => TypeError
                             end
                         end, w)).
  { unfold Memo.decode.
    change (startsWith_hash (hash :: body)) with true.
    cbn [negb substring1 tl Memo.toPrivateObj].
    unfold bind at 1. cbn [ret].
    destruct (bs58_decode body) as [bytes|]; [|reflexivity].
    unfold bind at 1. cbn [ret].
    destruct (EncryptedMemoD bytes) as [env|]; reflexivity. }
  split; [|split; [exact Dec|]].
  - unfold Memo.encode.
    change (startsWith_hash (hash :: text)) with true. cbn [negb].
    unfold Memo.encode_envelope.
    cbn [substring1 tl Memo.toPrivateObj Memo.toPublicObj].
    unfold bind at 2. cbn [ret]. unfold bind at 2. cbn [ret].
    assert (T : bind Aes.uniqueNonce (fun _ => throw TypeError) w
                = (@Throw Aes.Crypted TypeError, w1))
      by (now rewrite (bind_ok _ _ _ _ _ U)).
    now rewrite (bind_throw _ _ _ _ _ (bind_throw _ _ _ _ _ T)).
  - rewrite Dec. cbn [fst]. split.
    + destruct (bs58_decode body) as [bytes|]; [|discriminate].
      destruct (EncryptedMemoD bytes) as [env|] eqn:D; [|discriminate].
      intros _. exists bytes, env. split; [reflexivity|exact D].
    + intros [bytes [env [-> ->]]]. reflexivity.
Qed.

(** With the empty string as key in [Toy.world0]: [encode] has moved the
    counter to 8 when it throws; [decode] of a body that is no Base58
    (here: not Latin-1) throws the Base58 error, not the TypeError. *)
Lemma empty_private_key_string_witness :
  Aes.uniqueNonce Toy.world0
  = (Ok 111411200000000008, with_entropy Toy.world0 8)
  /\ (Memo.encode (Memo.KeyString []) (Memo.KeyObject Toy.bob_pub)
        (hash :: lit "hello") None Toy.world0
      = (Throw TypeError, with_entropy Toy.world0 8)
      /\ Memo.decode (Memo.KeyString []) (hash :: [0x2603]) Toy.world0
         = (Throw match bs58_decode [0x2603] with
                  | None => Base58Failure
                  | Some bytes =>
                      match EncryptedMemoD bytes with
                      | None => DeserializeFailure
                      | Some _ => TypeError
                      end
                  end, Toy.world0)
      /\ (fst (Memo.decode (Memo.KeyString []) (hash :: [0x2603]) Toy.world0)
          = Throw TypeError
          <-> exists bytes env,
                bs58_decode [0x2603] = Some bytes
                /\ EncryptedMemoD bytes = Some env)).
Proof.
  assert (U : Aes.uniqueNonce Toy.world0
              = (Ok 111411200000000008, with_entropy Toy.world0 8))
    by reflexivity.
  split; [exact U|].
  exact (empty_private_key_string (collab := Toy.collaborators)
           Toy.bob_pub (lit "hello") [0x2603] None Toy.world0 _ _ U).
Defined.

(** On the toy collaborators: the three outcomes of [decode] with the
    empty string as key, by how far the memo body gets. *)
Example empty_key_decode_order :
  Memo.decode (Memo.KeyString []) (hash :: [0x2603]) Toy.world0
  = (Throw Base58Failure, Toy.world0)
  /\ Memo.decode (Memo.KeyString []) (hash :: lit "short") Toy.world0
     = (Throw DeserializeFailure, Toy.world0)
  /\ Memo.decode (Memo.KeyString [])
       (hash :: of_binary Samples.framed_bytes) Toy.world0
     = (Throw TypeError, Toy.world0).
Proof. repeat split; vm_compute; reflexivity. Qed.

(* ------------------------------------------------------------------ *)
(** ** Sender and recipient *)

(** X14: the sender and the recipient named in an envelope read the same
    thing from it, be it a text or an error: with distinct public keys
    and a symmetric shared secret, [decode] gives both the same outcome. *)
Theorem both_parties_read_the_same {collab : Collaborators}
    (a b : PrivateKey) (body : jsstring) (bytes : Buffer)
    (env : Wire.Envelope) (w w' : World) :
  key_strings_identify_keys ->
  bs58_decode body = Some bytes ->
  EncryptedMemoD bytes = Some env ->
  createPublic a = Wire.from env ->
  createPublic b = Wire.to env ->
  createPublic a <> createPublic b ->
  get_shared_secret a (createPublic b) = get_shared_secret b (createPublic a) ->
  fst (Memo.decode (Memo.KeyObject a) (hash :: body) w)
  = fst (Memo.decode (Memo.KeyObject b) (hash :: body) w').
Proof.
  intros Inj B D Fa Tb Distinct Sym.
  rewrite (decode_marked (Memo.KeyObject a) a body bytes env w eq_refl B D).
  rewrite (decode_marked (Memo.KeyObject b) b body bytes env w' eq_refl B D).
  rewrite (counterparty_own a env Fa).
  rewrite (counterparty_other b env Inj) by congruence.
  rewrite !decrypt_of_crypt.
  assert (M : Aes.material a (Wire.to env) (Wire.nonce env)
              = Aes.material b (Wire.from env) (Wire.nonce env)).
  { apply material_same_secret. now rewrite <- Tb, <- Fa. }
  pose proof (crypt_same_material a b (Wire.to env) (Wire.from env)
                (Aes.NLong (Wire.nonce env)) (Wire.nonce env)
                (Wire.encrypted env)
                (Some (Wire.check env)) w w' eq_refl M) as C.
  destruct (Aes.crypt a _ _ _ _ w) as [[ra|ea] wa];
    destruct (Aes.crypt b _ _ _ _ w') as [[rb|eb] wb];
    cbn [fst] in C |- *; try discriminate C.
  - apply Ok_inj in C. now subst.
  - now injection C as ->.
Qed.

(** Alice and bob read the tampered envelope: both are refused alike. *)
Lemma both_parties_read_the_same_witness :
  key_strings_identify_keys (collab := Toy.collaborators)
  /\ bs58_decode (of_binary Samples.tampered_bytes)
     = Some Samples.tampered_bytes
  /\ EncryptedMemoD Samples.tampered_bytes = Some Samples.tampered_envelope
  /\ createPublic Toy.alice = Wire.from Samples.tampered_envelope
  /\ createPublic Toy.bob = Wire.to Samples.tampered_envelope
  /\ createPublic Toy.alice <> createPublic Toy.bob
  /\ get_shared_secret Toy.alice (createPublic Toy.bob)
     = get_shared_secret Toy.bob (createPublic Toy.alice)
  /\ fst (Memo.decode (Memo.KeyObject Toy.alice)
            (hash :: of_binary Samples.tampered_bytes) Toy.world0)
     = fst (Memo.decode (Memo.KeyObject Toy.bob)
              (hash :: of_binary Samples.tampered_bytes) Toy.world_65534).
Proof.
  assert (B : bs58_decode (of_binary Samples.tampered_bytes)
              = Some Samples.tampered_bytes) by (vm_compute; reflexivity).
  assert (D : EncryptedMemoD Samples.tampered_bytes
              = Some Samples.tampered_envelope) by (vm_compute; reflexivity).
  assert (Fa : createPublic Toy.alice = Wire.from Samples.tampered_envelope)
    by reflexivity.
  assert (Tb : createPublic Toy.bob = Wire.to Samples.tampered_envelope)
    by reflexivity.
  assert (Distinct : createPublic Toy.alice <> createPublic Toy.bob)
    by (vm_compute; discriminate).
  assert (Sym : get_shared_secret Toy.alice (createPublic Toy.bob)
                = get_shared_secret Toy.bob (createPublic Toy.alice))
    by (vm_compute; reflexivity).
  split; [exact ToyLaws.toy_key_strings|].
  split; [exact B|]. split; [exact D|]. split; [exact Fa|].
  split; [exact Tb|]. split; [exact Distinct|]. split; [exact Sym|].
  exact (both_parties_read_the_same (collab := Toy.collaborators)
           Toy.alice Toy.bob _ _ _ Toy.world0 Toy.world_65534
           ToyLaws.toy_key_strings B D Fa Tb Distinct Sym).
Defined.

(** X15: a marked memo of fewer than 128 ASCII characters survives the
    round trip: with a cipher, a Base58 codec and a serializer that give
    back what they were given, a symmetric shared secret, distinct key
    pairs and a derived checksum other than 0, the sender and the
    recipient both decode what was encoded. *)
Theorem short_ascii_memo_recovered {collab : Collaborators}
    (a b : PrivateKey) (text : jsstring) (supplied : option Z)
    (w : World) (e : Z) :
  short_ascii text ->
  key_strings_identify_keys ->
  unique_nonce_entropy w = Some e ->
  (forall tag iv plain,
     aes_256_cbc_decrypt tag iv (aes_256_cbc_encrypt tag iv plain)
     = Some plain) ->
  (forall buf, bs58_decode (bs58_encode buf) = Some buf) ->
  (forall env w',
     Memo.encode_envelope (Memo.KeyObject a) (Memo.KeyObject (createPublic b))
       (hash :: text) supplied w = (Ok env, w') ->
     EncryptedMemoD (EncryptedMemo env) = Some env) ->
  get_shared_secret b (createPublic a) = get_shared_secret a (createPublic b) ->
  createPublic a <> createPublic b ->
  Aes.check (Aes.material a (createPublic b)
               (Aes.nonce_value (now w) (e + 1))) <> 0 ->
  exists memo w',
    Memo.encode (Memo.KeyObject a) (Memo.KeyObject (createPublic b))
      (hash :: text) supplied w = (Ok memo, w')
    /\ fst (Memo.decode (Memo.KeyObject a) memo w') = Ok (hash :: text)
    /\ fst (Memo.decode (Memo.KeyObject b) memo w') = Ok (hash :: text).
Proof.
  intros S Inj E Haes H58 Hser Hsym Hdistinct NZ.
  pose proof (encode_marked_envelope a (createPublic b) text supplied w e E)
    as Env. cbv zeta in Env.
  destruct (decode_after_encode a a (createPublic b) text supplied w e E
              Haes H58) as [memo [w' [Enc DecA]]]; [|exact NZ|].
  { intros env w1 Ee. split; [now apply (Hser env w1)|].
    rewrite Env in Ee. apply run_inj in Ee as [<- _].
    now rewrite counterparty_own. }
  destruct (decode_after_encode a b (createPublic b) text supplied w e E
              Haes H58) as [memo' [w'' [Enc' DecB]]]; [|exact NZ|].
  { intros env w1 Ee. split; [now apply (Hser env w1)|].
    rewrite Env in Ee. apply run_inj in Ee as [<- _].
    rewrite counterparty_other; [exact Hsym|exact Inj|].
    cbn [Wire.from]. congruence. }
  rewrite Enc in Enc'. apply run_inj in Enc' as [<- <-].
  exists memo, w'. split; [exact Enc|].
  rewrite DecA, DecB, (Ascii7.unframe_framed_short_ascii text S).
  split; reflexivity.
Qed.

(** Alice encodes "#hello" for bob; both decode it. *)
Lemma short_ascii_memo_recovered_witness :
  short_ascii (lit "hello")
  /\ key_strings_identify_keys (collab := Toy.collaborators)
  /\ unique_nonce_entropy Toy.world0 = Some 7
  /\ (forall tag iv plain,
        aes_256_cbc_decrypt tag iv (aes_256_cbc_encrypt tag iv plain)
        = Some plain)
  /\ (forall buf, bs58_decode (bs58_encode buf) = Some buf)
  /\ (forall env w',
        Memo.encode_envelope (Memo.KeyObject Toy.alice)
          (Memo.KeyObject (createPublic Toy.bob)) (hash :: lit "hello") None
          Toy.world0 = (Ok env, w') ->
        EncryptedMemoD (EncryptedMemo env) = Some env)
  /\ get_shared_secret Toy.bob (createPublic Toy.alice)
     = get_shared_secret Toy.alice (createPublic Toy.bob)
  /\ createPublic Toy.alice <> createPublic Toy.bob
  /\ Aes.check (Aes.material Toy.alice (createPublic Toy.bob)
                  (Aes.nonce_value (now Toy.world0) (7 + 1))) <> 0
  /\ exists memo w',
       Memo.encode (Memo.KeyObject Toy.alice)
         (Memo.KeyObject (createPublic Toy.bob)) (hash :: lit "hello") None
         Toy.world0 = (Ok memo, w')
       /\ fst (Memo.decode (Memo.KeyObject Toy.alice) memo w')
          = Ok (hash :: lit "hello")
       /\ fst (Memo.decode (Memo.KeyObject Toy.bob) memo w')
          = Ok (hash :: lit "hello").
Proof.
  assert (S : short_ascii (lit "hello")).
  { split; [|cbn; lia]. repeat constructor; vm_compute; congruence. }
  assert (E : unique_nonce_entropy Toy.world0 = Some 7) by reflexivity.
  assert (Haes : forall tag iv plain,
             aes_256_cbc_decrypt tag iv (aes_256_cbc_encrypt tag iv plain)
             = Some plain) by (intros; reflexivity).
  assert (H58 : forall buf, bs58_decode (bs58_encode buf) = Some buf)
    by exact ToyLaws.toy_text_roundtrip.
  assert (Hser : forall env w',
             Memo.encode_envelope (Memo.KeyObject Toy.alice)
               (Memo.KeyObject (createPublic Toy.bob)) (hash :: lit "hello")
               None Toy.world0 = (Ok env, w') ->
             EncryptedMemoD (EncryptedMemo env) = Some env).
  { intros env w' Ee. vm_compute in Ee. apply run_inj in Ee as [<- _].
    vm_compute. reflexivity. }
  assert (Hsym : get_shared_secret Toy.bob (createPublic Toy.alice)
                 = get_shared_secret Toy.alice (createPublic Toy.bob))
    by (vm_compute; reflexivity).
  assert (Hdistinct : createPublic Toy.alice <> createPublic Toy.bob)
    by (vm_compute; discriminate).
  assert (NZ : Aes.check (Aes.material Toy.alice (createPublic Toy.bob)
                            (Aes.nonce_value (now Toy.world0) (7 + 1))) <> 0)
    by (vm_compute; discriminate).
  split; [exact S|]. split; [exact ToyLaws.toy_key_strings|].
  split; [exact E|]. split; [exact Haes|]. split; [exact H58|].
  split; [exact Hser|]. split; [exact Hsym|]. split; [exact Hdistinct|].
  split; [exact NZ|].
  exact (short_ascii_memo_recovered (collab := Toy.collaborators)
           Toy.alice Toy.bob (lit "hello") None Toy.world0 7
           S ToyLaws.toy_key_strings E Haes H58 Hser Hsym Hdistinct NZ).
Defined.

(* ------------------------------------------------------------------ *)
(** ** Key strings that do not parse *)

(** X16: a non-empty private-key string that does not parse is refused
    first: [encode] throws before a nonce is drawn, [decode] throws
    before the memo body is looked at; the state is untouched. *)
Theorem unparsable_private_key_refused_first {collab : Collaborators}
    (s text body : jsstring) (public_key : Memo.KeyArg PublicKey)
    (supplied : option Z) (w : World) :
  s <> [] ->
  PrivateKey_fromString s = None ->
  Memo.encode (Memo.KeyString s) public_key (hash :: text) supplied w
  = (Throw InvalidKeyString, w)
  /\ Memo.decode (Memo.KeyString s) (hash :: body) w
     = (Throw InvalidKeyString, w).
Proof.
  intros NE P. destruct s as [|c s]; [contradiction|].
  assert (K : Memo.toPrivateObj (Memo.KeyString (c :: s)) w
              = (Throw InvalidKeyString, w))
    by (unfold Memo.toPrivateObj; now rewrite P).
  split.
  - unfold Memo.encode.
    change (startsWith_hash (hash :: text)) with true. cbn [negb].
    unfold Memo.encode_envelope.
    now rewrite (bind_throw _ _ _ _ _ (bind_throw _ _ _ _ _ K)).
  - unfold Memo.decode.
    change (startsWith_hash (hash :: body)) with true. cbn [negb].
    now rewrite (bind_throw _ _ _ _ _ K).
Qed.

(** The one-character string U+2603 is no key for the strict parsers. *)
Lemma unparsable_private_key_witness :
  [0x2603] <> []
  /\ @PrivateKey_fromString Samples.block_collaborators [0x2603] = None
  /\ (@Memo.encode Samples.block_collaborators (Memo.KeyString [0x2603])
        (Memo.KeyObject Toy.bob_pub) (hash :: lit "hello") None Toy.world0
      = (Throw InvalidKeyString, Toy.world0)
      /\ @Memo.decode Samples.block_collaborators (Memo.KeyString [0x2603])
           (hash :: lit "not base58") Toy.world0
         = (Throw InvalidKeyString, Toy.world0)).
Proof.
  assert (NE : [0x2603] <> ([] : jsstring)) by discriminate.
  assert (P : @PrivateKey_fromString Samples.block_collaborators [0x2603]
              = None) by reflexivity.
  split; [exact NE|]. split; [exact P|].
  exact (unparsable_private_key_refused_first
           (collab := Samples.block_collaborators) [0x2603] (lit "hello")
           (lit "not base58") (Memo.KeyObject Toy.bob_pub) None Toy.world0
           NE P).
Defined.

(* ------------------------------------------------------------------ *)
(** ** A number as nonce *)


